(** * Prism: the release step scripts/sync-cargo-version.js

    The script copies the version of package.json into
    src-tauri/Cargo.toml and amends the release commit.  It is a straight
    line of calls into the Node runtime (fs, JSON, child_process) and into
    the smol-toml package.  The embedding below keeps that shape: the
    script is one term of a state-and-exception monad over a world made of
    a file system and a git repository, and every call it makes leaves an
    event in a trace. *)

From Stdlib Require Import Ascii String.
From stdpp Require Import gmap strings list.

Set Warnings "-register-all".
Open Scope string_scope.
Open Scope Z_scope.

(** ** JavaScript values *)

(** The values that JSON.parse and smol-toml's parse hand to the script.
    Objects keep their own properties in insertion order.  Arrays and
    dates are objects as well, so they can carry named properties next to
    their content (props: keys other than indices and length).  No value
    is a function.  A number is identified by the text Number::toString
    gives for it; a date by the text of its toString() on the host and by
    the text of its time value: the script never computes with either. *)
Inductive value :=
| VUndefined
| VNull
| VBool (b : bool)
| VNum (repr : string)
| VStr (s : string)
| VDate (shown time : string) (props : list (string * value))
| VArr (elems : list value) (props : list (string * value))
| VObj (fields : list (string * value)).

(** Own-property lookup. *)
Fixpoint lookup_field (k : string) (fs : list (string * value)) : option value :=
  match fs with
  | [] => None
  | (k', v) :: r => if String.eqb k k' then Some v else lookup_field k r
  end.

(** [[Set]] on an ordinary object: an existing key keeps its place, a new
    key goes last. *)
Fixpoint set_field (k : string) (v : value) (fs : list (string * value))
  : list (string * value) :=
  match fs with
  | [] => [(k, v)]
  | (k', v') :: r =>
      if String.eqb k k' then (k', v) :: r else (k', v') :: set_field k v r
  end.

(** The errors of the run, named by the call that throws them. *)
Inductive ErrorKind :=
| FsReadError        (* readFileSync *)
| JsonSyntaxError    (* JSON.parse *)
| TomlParseError     (* smol-toml parse *)
| TomlStringifyError (* smol-toml stringify *)
| TypeError          (* property access on undefined or null, or property
                        creation on a primitive in strict mode *)
| FsWriteError       (* writeFileSync *)
| ExecError.         (* execSync: the child exited with a non-zero status *)

Record exn := { kind : ErrorKind; message : string }.

(** [o.k] for a key that no built-in prototype defines (the script uses
    "version" and "package"). *)
Definition get (o : value) (k : string) : exn + value :=
  match o with
  | VUndefined | VNull =>
      inl {| kind := TypeError;
             message := "Cannot read properties of undefined or null (reading '" +:+ k +:+ "')" |}
  | VObj fs | VArr _ fs | VDate _ _ fs => inr (default VUndefined (lookup_field k fs))
  | VBool _ | VNum _ | VStr _ => inr VUndefined
  end.

(** [o.k = v] in strict mode (the script is an ES module), for a key that
    is neither an array index nor "length".  The result is the object
    after the assignment. *)
Definition put (o : value) (k : string) (v : value) : exn + value :=
  match o with
  | VUndefined | VNull =>
      inl {| kind := TypeError;
             message := "Cannot set properties of undefined or null (setting '" +:+ k +:+ "')" |}
  | VBool _ | VNum _ | VStr _ =>
      inl {| kind := TypeError;
             message := "Cannot create property '" +:+ k +:+ "' on a primitive" |}
  | VObj fs => inr (VObj (set_field k v fs))
  | VArr es ps => inr (VArr es (set_field k v ps))
  | VDate d t ps => inr (VDate d t (set_field k v ps))
  end.

(** The values a property can be set on: plain objects, arrays and dates. *)
Definition is_object (v : value) : bool :=
  match v with
  | VObj _ | VArr _ _ | VDate _ _ _ => true
  | _ => false
  end.

(** ToString, as a template literal applies it: ToPrimitive with hint
    string, which asks the value for toString and then for valueOf.

    An own property shadows the method of the prototype, and no own
    property is callable.  So an object or an array with an own toString
    cannot be converted: its valueOf, own or inherited, gives no
    primitive.  A date with an own toString falls back to
    Date.prototype.valueOf, its time value, unless valueOf is shadowed
    too.  Array.prototype.toString joins the elements with commas, null
    and undefined as the empty string, and falls back to
    Object.prototype.toString when join is shadowed. *)
Definition not_primitive : exn :=
  {| kind := TypeError; message := "Cannot convert object to primitive value" |}.

Fixpoint ToString (v : value) : exn + string :=
  match v with
  | VUndefined => inr "undefined"
  | VNull => inr "null"
  | VBool true => inr "true"
  | VBool false => inr "false"
  | VNum r => inr r
  | VStr s => inr s
  | VDate d t ps =>
      match lookup_field "toString" ps, lookup_field "valueOf" ps with
      | None, _ => inr d
      | Some _, None => inr t
      | Some _, Some _ => inl not_primitive
      end
  | VObj fs =>
      match lookup_field "toString" fs with
      | None => inr "[object Object]"
      | Some _ => inl not_primitive
      end
  | VArr es ps =>
      match lookup_field "toString" ps, lookup_field "join" ps with
      | Some _, _ => inl not_primitive
      | None, Some _ => inr "[object Array]"
      | None, None =>
          (fix join (l : list value) : exn + string :=
             match l with
             | [] => inr ""
             | x :: r =>
                 match (match x with
                        | VUndefined | VNull => inr ""
                        | _ => ToString x
                        end) with
                 | inl e => inl e
                 | inr item =>
                     match r with
                     | [] => inr item
                     | _ :: _ =>
                         match join r with
                         | inl e => inl e
                         | inr rest => inr (item +:+ "," +:+ rest)
                         end
                     end
                 end
             end) es
      end
  end.

(** ** Paths *)

(** An absolute path, as its segments from the root. *)
Abbreviation path := (list string).

(** path.join on segments: ".." drops the last segment (and stays at the
    root), "." is skipped. *)
Fixpoint normalize (rev_base : list string) (segs : list string) : path :=
  match segs with
  | [] => rev rev_base
  | s :: r =>
      if String.eqb s ".." then normalize (tail rev_base) r
      else if String.eqb s "." then normalize rev_base r
      else normalize (s :: rev_base) r
  end.

Definition join (base : path) (segs : list string) : path :=
  normalize (rev base) segs.

Fixpoint split_on (c : Ascii.ascii) (s : string) : list string :=
  match s with
  | EmptyString => [EmptyString]
  | String a r =>
      if Ascii.eqb a c then EmptyString :: split_on c r
      else match split_on c r with
           | [] => [String a EmptyString]
           | w :: ws => String a w :: ws
           end
  end.

Fixpoint is_prefix (p q : path) : bool :=
  match p, q with
  | [], _ => true
  | a :: p', b :: q' => String.eqb a b && is_prefix p' q'
  | _ :: _, [] => false
  end.

(** ** The world: files and the git repository *)

Record Commit := { commit_message : string; tree : gmap path string }.

(** Modelled from the spec: the git repository behind execSync, which the
    script drives but does not contain.  The spec's words: to stage is to
    mark a file's current content as the next thing to be committed; to
    amend is to rewrite the most recent commit in place to include the
    staged changes, rather than creating a new commit; staging fails if the
    path does not exist or is outside a working tree; the amend fails if no
    prior commit exists, if the repository is in a conflicted or merging
    state, or if a hook that cannot be bypassed rejects it. *)
Record Repo := {
  worktree : path;                (* root of the working tree *)
  index : gmap path string;       (* the staged content *)
  history : list Commit;          (* HEAD first *)
  merging : bool;                 (* conflicted or merging state *)
  commit_msg_hook_rejects : bool; (* message validation, skipped by --no-verify *)
  other_hook_rejects : bool;      (* a hook that --no-verify does not skip *)
  editor_text : string            (* what an editor session would return *)
}.

Record World := {
  files : gmap path string;       (* utf-8 content of each file *)
  locked : gset path;             (* paths that cannot be opened for writing *)
  capacity : option nat;          (* bytes one write can store before the
                                     device or the file size limit stops
                                     it; None: no limit *)
  repo : option Repo              (* None: no repository here *)
}.

Definition with_repo (w : World) (r : Repo) : World :=
  {| files := files w; locked := locked w; capacity := capacity w; repo := Some r |}.

(** The world after p has been given the content data. *)
Definition written (w : World) (p : path) (data : string) : World :=
  {| files := <[p := data]> (files w); locked := locked w;
     capacity := capacity w; repo := repo w |}.

(** [fits w data]: a write of data is not cut short. *)
Definition fits (w : World) (data : string) : bool :=
  match capacity w with
  | None => true
  | Some n => (String.length data <=? n)%nat
  end.

Definition with_index (r : Repo) (i : gmap path string) : Repo :=
  {| worktree := worktree r; index := i; history := history r;
     merging := merging r; commit_msg_hook_rejects := commit_msg_hook_rejects r;
     other_hook_rejects := other_hook_rejects r; editor_text := editor_text r |}.

Definition with_history (r : Repo) (h : list Commit) : Repo :=
  {| worktree := worktree r; index := index r; history := h;
     merging := merging r; commit_msg_hook_rejects := commit_msg_hook_rejects r;
     other_hook_rejects := other_hook_rejects r; editor_text := editor_text r |}.

(** Modelled from the spec: [git add <pathspec>] run in [cwd]. *)
Definition git_add (cwd : path) (pathspec : string) (w : World) : string + World :=
  match repo w with
  | None => inl "fatal: not a git repository"
  | Some r =>
      let p := join cwd (split_on "/"%char pathspec) in
      if negb (is_prefix (worktree r) cwd) then inl "fatal: not a git repository"
      else if negb (is_prefix (worktree r) p) then
        inl ("fatal: " +:+ pathspec +:+ " is outside repository")
      else match files w !! p with
           | None => inl ("fatal: pathspec '" +:+ pathspec +:+ "' did not match any files")
           | Some c => inr (with_repo w (with_index r (<[p := c]> (index r))))
           end
  end.

(** Modelled from the spec: [git commit --amend] run in [cwd], with or
    without --no-edit and --no-verify. *)
Definition git_amend (cwd : path) (no_edit no_verify : bool) (w : World)
  : string + World :=
  match repo w with
  | None => inl "fatal: not a git repository"
  | Some r =>
      if negb (is_prefix (worktree r) cwd) then inl "fatal: not a git repository"
      else match history r with
           | [] => inl "fatal: You have nothing to amend."
           | c :: older =>
               if merging r then
                 inl "fatal: You are in the middle of a merge -- cannot amend."
               else if negb no_verify && commit_msg_hook_rejects r then
                 inl "error: the commit-msg hook rejected the message"
               else if other_hook_rejects r then
                 inl "error: a hook rejected the commit"
               else
                 let c' := {| commit_message :=
                                if no_edit then commit_message c else editor_text r;
                              tree := index r |} in
                 inr (with_repo w (with_history r (c' :: older)))
           end
  end.

Definition shell_words (cmd : string) : list string :=
  List.filter (fun w => negb (String.eqb w "")) (split_on " "%char cmd).

Definition has_flag (f : string) (flags : list string) : bool :=
  existsb (String.eqb f) flags.

(** The child process of execSync.  Only the two command shapes of the
    script are given a meaning; anything else fails. *)
Definition shell (cmd : string) (cwd : path) (w : World) : string + World :=
  match shell_words cmd with
  | "git" :: "add" :: [pathspec] => git_add cwd pathspec w
  | "git" :: "commit" :: flags =>
      if has_flag "--amend" flags
         && forallb (fun f => has_flag f ["--amend"; "--no-edit"; "--no-verify"]) flags
      then git_amend cwd (has_flag "--no-edit" flags) (has_flag "--no-verify" flags) w
      else inl "git commit: only --amend is modelled"
  | _ => inl ("sh: command not modelled: " +:+ cmd)
  end.

(** ** The runtime: a trace, state and exceptions *)

(** What the process did, in order.  An attempt is recorded before its
    outcome is known, so a failed call is in the trace too. *)
Inductive Event :=
| EvRead (p : path)
| EvWrite (p : path) (data : string)
| EvExec (cmd : string) (cwd : path)
| EvLog (line : string)         (* console.log, on stdout *)
| EvError (line : string)       (* console.error, on stderr *)
| EvUncaught (e : exn).         (* Node's report of an uncaught exception *)

Record State := { world : World; events : list Event }.

Definition emit (ev : Event) (s : State) : State :=
  {| world := world s; events := events s ++ [ev] |}.

(** A computation stops early by throwing or by process.exit. *)
Inductive abort :=
| Throw (e : exn)
| Exit (code : Z).

Definition M (A : Type) : Type := State -> (abort + A) * State.

Definition ret {A} (a : A) : M A := fun s => (inr a, s).

Definition bind {A B} (m : M A) (k : A -> M B) : M B :=
  fun s => match m s with
           | (inr a, s') => k a s'
           | (inl stop, s') => (inl stop, s')
           end.

Notation "x <- m ;; k" := (bind m (fun x => k))
  (at level 100, m at next level, right associativity).
Notation "m ;;; k" := (bind m (fun _ => k))
  (at level 100, right associativity).

Definition throw {A} (e : exn) : M A := fun s => (inl (Throw e), s).

(** A library call that returns or throws: the error text becomes an
    exception of the kind of the call. *)
Definition call {A} (k : ErrorKind) (r : string + A) : M A :=
  match r with
  | inr a => ret a
  | inl msg => throw {| kind := k; message := msg |}
  end.

Definition lift {A} (r : exn + A) : M A :=
  match r with
  | inr a => ret a
  | inl e => throw e
  end.

(** try { body } catch (error) { handler }: process.exit is not caught. *)
Definition try_catch {A} (body : M A) (handler : exn -> M A) : M A :=
  fun s => match body s with
           | (inl (Throw e), s') => handler e s'
           | r => r
           end.

Definition process_exit {A} (code : Z) : M A := fun s => (inl (Exit code), s).

Definition console_log (line : string) : M unit :=
  fun s => (inr tt, emit (EvLog line) s).

Definition console_error (line : string) : M unit :=
  fun s => (inr tt, emit (EvError line) s).

(** fs.readFileSync(p, 'utf-8') *)
Definition readFileSync (p : path) : M string :=
  fun s =>
    let s' := emit (EvRead p) s in
    match files (world s) !! p with
    | Some text => (inr text, s')
    | None =>
        (inl (Throw {| kind := FsReadError;
                       message := "ENOENT: no such file or directory" |}), s')
    end.

(** fs.writeFileSync(p, data, 'utf-8').  The file is opened for writing,
    which empties it, and the bytes are then written.  When the open is
    refused the file is untouched.  When the write is cut short the file
    is left with the bytes that went in, and the call throws. *)
Definition writeFileSync (p : path) (data : string) : M unit :=
  fun s =>
    let s' := emit (EvWrite p data) s in
    if decide (p ∈ locked (world s)) then
      (inl (Throw {| kind := FsWriteError;
                     message := "EACCES: permission denied" |}), s')
    else if fits (world s) data then
      (inr tt, {| world := written (world s) p data; events := events s' |})
    else
      (inl (Throw {| kind := FsWriteError;
                     message := "ENOSPC: no space left on device" |}),
       {| world := written (world s) p
                     (String.substring 0 (default 0%nat (capacity (world s))) data);
          events := events s' |}).

Definition newline : string := String (ascii_of_nat 10) EmptyString.

(** child_process.execSync(cmd, { cwd }) *)
Definition execSync (cmd : string) (cwd : path) : M unit :=
  fun s =>
    let s' := emit (EvExec cmd cwd) s in
    match shell cmd cwd (world s) with
    | inr w' => (inr tt, {| world := w'; events := events s' |})
    | inl stderr =>
        (inl (Throw {| kind := ExecError;
                       message := "Command failed: " +:+ cmd +:+ newline +:+ stderr |}),
         s')
    end.

(** ** The packages the script imports *)

(** JSON.parse and smol-toml's parse and stringify are not code of this
    repository: they are taken as they come, each returning a value or the
    text of the error it throws. *)
Record Libs := {
  JSON_parse : string -> string + value;
  parse : string -> string + value;
  stringify : value -> string + string
}.

(** ** scripts/sync-cargo-version.js *)

Section Script.

Variable L : Libs.

(** dirname(fileURLToPath(import.meta.url)): where the script file is. *)
Variable __dirname : path.

Definition rootDir : path := join __dirname [".."].
Definition packageJsonPath : path := join rootDir ["package.json"].
Definition cargoTomlPath : path := join rootDir ["src-tauri"; "Cargo.toml"].

(** cargo.package.version = version.  The object behind cargo.package is
    changed in place; cargo sees the change because it holds that same
    object under its "package" key. *)
Definition assign_package_version (cargo version : value) : exn + value :=
  match get cargo "package" with
  | inl e => inl e
  | inr pkg =>
      match put pkg "version" version with
      | inl e => inl e
      | inr pkg' =>
          inr match cargo with
              | VObj fs => VObj (set_field "package" pkg' fs)
              | VArr es ps => VArr es (set_field "package" pkg' ps)
              | VDate d t ps => VDate d t (set_field "package" pkg' ps)
              | _ => cargo
              end
      end
  end.

(** Lines 43 to 46: the body of the try block. *)
Definition amend_body : M unit :=
  execSync "git add src-tauri/Cargo.toml" rootDir ;;;
  execSync "git commit --amend --no-edit --no-verify" rootDir ;;;
  console_log "✅ 已将 Cargo.toml 添加到 release commit".

(** Lines 47 to 50: the catch block. *)
Definition amend_handler (error : exn) : M unit :=
  console_error ("❌ amend commit 失败:" +:+ " " +:+ message error) ;;;
  process_exit 1.

(** The whole module, line by line.  The template literals of lines 26
    and 40 convert version to a string before console.log is called, and
    throw when it cannot be converted. *)
Definition main : M unit :=
  text <- readFileSync packageJsonPath ;;
  packageJson <- call JsonSyntaxError (JSON_parse L text) ;;
  version <- lift (get packageJson "version") ;;
  shown <- lift (ToString version) ;;
  console_log ("📦 当前版本: " +:+ shown) ;;;
  cargoToml <- readFileSync cargoTomlPath ;;
  cargo <- call TomlParseError (parse L cargoToml) ;;
  cargo' <- lift (assign_package_version cargo version) ;;
  data <- call TomlStringifyError (stringify L cargo') ;;
  writeFileSync cargoTomlPath data ;;;
  shown' <- lift (ToString version) ;;
  console_log ("✅ 已更新 src-tauri/Cargo.toml 版本为 " +:+ shown') ;;;
  try_catch amend_body amend_handler.

(** Running the script with Node: the exit status and the final state.
    An exception nobody catches is reported and the status is 1. *)
Definition node (w : World) : Z * State :=
  match main {| world := w; events := [] |} with
  | (inr tt, s) => (0, s)
  | (inl (Exit code), s) => (code, s)
  | (inl (Throw e), s) => (1, emit (EvUncaught e) s)
  end.

End Script.

Arguments rootDir __dirname /.
Arguments packageJsonPath __dirname /.
Arguments cargoTomlPath __dirname /.

(** ** Vocabulary of the specification *)

(** The four error classes of the specification, and the class of each
    exception of the script.  The specification has no class for a failure
    of stringify. *)
Inductive SpecError :=
| ReadError
| FieldMissingError
| WriteError
| VersionControlError.

Definition taxonomy (k : ErrorKind) : option SpecError :=
  match k with
  | FsReadError | JsonSyntaxError | TomlParseError => Some ReadError
  | TypeError => Some FieldMissingError
  | FsWriteError => Some WriteError
  | ExecError => Some VersionControlError
  | TomlStringifyError => None
  end.

(** The field at a dotted path, going through tables only. *)
Fixpoint lookup_path (p : list string) (v : value) : option value :=
  match p with
  | [] => Some v
  | k :: r =>
      match v with
      | VObj fs =>
          match lookup_field k fs with
          | Some x => lookup_path r x
          | None => None
          end
      | _ => None
      end
  end.

(** The child processes of a trace, in order. *)
Fixpoint execs (evs : list Event) : list string :=
  match evs with
  | [] => []
  | EvExec cmd _ :: r => cmd :: execs r
  | _ :: r => execs r
  end.

(** The paths a trace wrote to, in order. *)
Fixpoint writes (evs : list Event) : list path :=
  match evs with
  | [] => []
  | EvWrite p _ :: r => p :: writes r
  | _ :: r => writes r
  end.

(** The lines on stdout and stderr, in order. *)
Fixpoint console (evs : list Event) : list string :=
  match evs with
  | [] => []
  | EvLog l :: r => l :: console r
  | EvError l :: r => l :: console r
  | _ :: r => console r
  end.

(** [contains needle hay]: needle occurs in hay. *)
Fixpoint contains (needle hay : string) : bool :=
  String.prefix needle hay ||
  match hay with
  | EmptyString => false
  | String _ r => contains needle r
  end.

(** The run gets as far as the call of writeFileSync: both manifests are
    read and parsed, the version is printed as [shown], the assignment
    goes through and stringify returns [data]. *)
Inductive reaches_write (L : Libs) (dir : path) (w : World)
  : value -> string -> value -> string -> Prop :=
| ReachesWrite ptext packageJson version shown ctext cargo cargo' data :
    files w !! packageJsonPath dir = Some ptext ->
    JSON_parse L ptext = inr packageJson ->
    get packageJson "version" = inr version ->
    ToString version = inr shown ->
    files w !! cargoTomlPath dir = Some ctext ->
    parse L ctext = inr cargo ->
    assign_package_version cargo version = inr cargo' ->
    stringify L cargo' = inr data ->
    reaches_write L dir w version shown cargo data.

(** The trace up to and including the write and the line that follows. *)
Definition sync_events (dir : path) (shown data : string) : list Event :=
  [ EvRead (packageJsonPath dir);
    EvLog ("📦 当前版本: " +:+ shown);
    EvRead (cargoTomlPath dir);
    EvWrite (cargoTomlPath dir) data;
    EvLog ("✅ 已更新 src-tauri/Cargo.toml 版本为 " +:+ shown) ].

(** The state in which the try block is entered. *)
Definition sync_state (dir : path) (w : World) (shown data : string) : State :=
  {| world := written w (cargoTomlPath dir) data;
     events := sync_events dir shown data |}.

(** What the script needs of smol-toml to be read back: a string that sits
    at a path of tables in the document given to stringify is found at the
    same path when the text is parsed again. *)
Definition strings_survive (L : Libs) : Prop :=
  forall d text,
    stringify L d = inr text ->
    exists d', parse L text = inr d' /\
               forall p s, lookup_path p d = Some (VStr s) ->
                           lookup_path p d' = Some (VStr s).

(** The two commands of the try block, and the line the catch block prints
    when command [cmd] fails with [stderr]. *)
Definition add_cmd : string := "git add src-tauri/Cargo.toml".
Definition amend_cmd : string := "git commit --amend --no-edit --no-verify".

Definition diagnostic (cmd stderr : string) : string :=
  "❌ amend commit 失败:" +:+ " " +:+ ("Command failed: " +:+ cmd +:+ newline +:+ stderr).

(** What the try/catch of lines 43 to 50 makes of a state: the exit status
    (0 when the block runs to its end) and the state it leaves. *)
Definition amend_outcome (root : path) (s : State) : Z * State :=
  match git_add root "src-tauri/Cargo.toml" (world s) with
  | inl stderr =>
      (1, {| world := world s;
             events := events s ++ [EvExec add_cmd root;
                                    EvError (diagnostic add_cmd stderr)] |})
  | inr w2 =>
      match git_amend root true true w2 with
      | inl stderr =>
          (1, {| world := w2;
                 events := events s ++ [EvExec add_cmd root;
                                        EvExec amend_cmd root;
                                        EvError (diagnostic amend_cmd stderr)] |})
      | inr w3 =>
          (0, {| world := w3;
                 events := events s ++ [EvExec add_cmd root;
                                        EvExec amend_cmd root;
                                        EvLog "✅ 已将 Cargo.toml 添加到 release commit"] |})
      end
  end.

(** An event without its payload: which file, which command, which
    stream, but not the text read, written or printed. *)
Inductive Step :=
| SRead (p : path)
| SWrite (p : path)
| SExec (cmd : string) (cwd : path)
| SLog
| SError
| SUncaught.

Definition step_of (ev : Event) : Step :=
  match ev with
  | EvRead p => SRead p
  | EvWrite p _ => SWrite p
  | EvExec cmd cwd => SExec cmd cwd
  | EvLog _ => SLog
  | EvError _ => SError
  | EvUncaught _ => SUncaught
  end.

(** The steps of the module in source order (lines 23 to 46). *)
Definition pipeline (dir : path) : list Step :=
  [ SRead (packageJsonPath dir);
    SLog;
    SRead (cargoTomlPath dir);
    SWrite (cargoTomlPath dir);
    SLog;
    SExec add_cmd (rootDir dir);
    SExec amend_cmd (rootDir dir);
    SLog ].

(** The commit messages of a repository, HEAD first; None without a
    repository. *)
Definition commit_messages (w : World) : option (list string) :=
  (fun r => map commit_message (history r)) <$> repo w.

(** ** A recorded library and a small repository, to run the script on *)

(** Structural equality of values. *)
Fixpoint value_eqb (a b : value) : bool :=
  let fields_eqb :=
    fix go (x y : list (string * value)) : bool :=
      match x, y with
      | [], [] => true
      | (k, v) :: x', (k', v') :: y' => String.eqb k k' && value_eqb v v' && go x' y'
      | _, _ => false
      end in
  let elems_eqb :=
    fix go (x y : list value) : bool :=
      match x, y with
      | [], [] => true
      | v :: x', v' :: y' => value_eqb v v' && go x' y'
      | _, _ => false
      end in
  match a, b with
  | VUndefined, VUndefined => true
  | VNull, VNull => true
  | VBool x, VBool y => Bool.eqb x y
  | VNum x, VNum y => String.eqb x y
  | VStr x, VStr y => String.eqb x y
  | VDate x t p, VDate y u q => String.eqb x y && String.eqb t u && fields_eqb p q
  | VArr x p, VArr y q => elems_eqb x y && fields_eqb p q
  | VObj p, VObj q => fields_eqb p q
  | _, _ => false
  end.

Fixpoint text_lookup (t : string) (table : list (string * value)) : option value :=
  match table with
  | [] => None
  | (t', v) :: r => if String.eqb t t' then Some v else text_lookup t r
  end.

Fixpoint doc_lookup (v : value) (table : list (string * value)) : option string :=
  match table with
  | [] => None
  | (t, v') :: r => if value_eqb v v' then Some t else doc_lookup v r
  end.

(** A library that knows finitely many texts: parsing looks the text up,
    stringify looks the document up. *)
Definition recorded (json toml : list (string * value)) : Libs :=
  {| JSON_parse t :=
       match text_lookup t json with
       | Some v => inr v
       | None => inl "Unexpected token in JSON"
       end;
     parse t :=
       match text_lookup t toml with
       | Some v => inr v
       | None => inl "Invalid TOML document"
       end;
     stringify v :=
       match doc_lookup v toml with
       | Some t => inr t
       | None => inl "stringify: cannot serialize this value"
       end |}.

(** Every text of the table is parsed to the document recorded with it. *)
Definition consistent (table : list (string * value)) : bool :=
  forallb (fun e => match text_lookup (fst e) table with
                    | Some d => value_eqb d (snd e)
                    | None => false
                    end) table.

Module Demo.

Definition quoted (s : string) : string :=
  String (ascii_of_nat 34) s +:+ String (ascii_of_nat 34) EmptyString.

Definition package_json (v : string) : string :=
  "{ " +:+ quoted "name" +:+ ": " +:+ quoted "prism" +:+ ", "
       +:+ quoted "version" +:+ ": " +:+ quoted v +:+ " }".

Definition package_doc (v : string) : value :=
  VObj [("name", VStr "prism"); ("version", VStr v)].

Definition cargo_toml (v : string) : string :=
  "[package]" +:+ newline +:+ "name = " +:+ quoted "prism" +:+ newline
              +:+ "version = " +:+ quoted v +:+ newline.

Definition cargo_doc (v : string) : value :=
  VObj [("package", VObj [("name", VStr "prism"); ("version", VStr v)])].

(** A manifest without a package table. *)
Definition workspace_toml : string :=
  "[workspace]" +:+ newline +:+ "resolver = " +:+ quoted "2" +:+ newline.

Definition workspace_doc : value :=
  VObj [("workspace", VObj [("resolver", VStr "2")])].

Definition lib : Libs :=
  recorded
    [ (package_json "0.1.7", package_doc "0.1.7");
      (package_json "", package_doc "") ]
    [ (cargo_toml "0.1.4", cargo_doc "0.1.4");
      (cargo_toml "0.1.7", cargo_doc "0.1.7");
      (cargo_toml "", cargo_doc "");
      (workspace_toml, workspace_doc) ].

(** The script sits in /repo/scripts. *)
Definition dir : path := ["repo"; "scripts"].

Definition tree_of (primary secondary : string) : gmap path string :=
  {[ ["repo"; "package.json"] := primary;
     ["repo"; "src-tauri"; "Cargo.toml"] := secondary ]}.

Definition release_commit (primary secondary : string) : Commit :=
  {| commit_message := "chore(release): 0.1.7";
     tree := tree_of primary secondary |}.

(** A repository whose index is [staged] and whose commits are [commits].
    Its commit-msg hook rejects every message. *)
Definition repository (staged : gmap path string) (commits : list Commit) : Repo :=
  {| worktree := ["repo"]; index := staged; history := commits;
     merging := false; commit_msg_hook_rejects := true;
     other_hook_rejects := false; editor_text := "edited" |}.

(** Right after the release tool has bumped package.json and committed:
    Cargo.toml still has the old version. *)
Definition after_release (new old : string) : World :=
  {| files := tree_of (package_json new) (cargo_toml old);
     locked := ∅; capacity := None;
     repo := Some (repository (tree_of (package_json new) (cargo_toml old))
                     [release_commit (package_json new) (cargo_toml old)]) |}.

(** The same files in a repository that has no commit yet. *)
Definition before_first_commit (new old : string) : World :=
  {| files := tree_of (package_json new) (cargo_toml old);
     locked := ∅; capacity := None;
     repo := Some (repository ∅ []) |}.

(** A manifest without a package table. *)
Definition no_package_table : World :=
  {| files := tree_of (package_json "0.1.7") workspace_toml;
     locked := ∅; capacity := None;
     repo := Some (repository (tree_of (package_json "0.1.7") workspace_toml)
                     [release_commit (package_json "0.1.7") workspace_toml]) |}.

(** package.json is not there. *)
Definition no_primary : World :=
  {| files := {[ ["repo"; "src-tauri"; "Cargo.toml"] := cargo_toml "0.1.4" ]};
     locked := ∅; capacity := None;
     repo := Some (repository ∅ []) |}.

(** The repository is in the middle of a merge. *)
Definition mid_merge (new old : string) : World :=
  {| files := tree_of (package_json new) (cargo_toml old);
     locked := ∅; capacity := None;
     repo := Some {| worktree := ["repo"];
                     index := tree_of (package_json new) (cargo_toml old);
                     history := [release_commit (package_json new) (cargo_toml old)];
                     merging := true; commit_msg_hook_rejects := false;
                     other_hook_rejects := false; editor_text := "edited" |} |}.


(** Cargo.toml cannot be written. *)
Definition read_only (new old : string) : World :=
  {| files := tree_of (package_json new) (cargo_toml old);
     locked := {[ ["repo"; "src-tauri"; "Cargo.toml"] ]}; capacity := None;
     repo := Some (repository (tree_of (package_json new) (cargo_toml old))
                     [release_commit (package_json new) (cargo_toml old)]) |}.

(** The disk is full: a write stores nothing. *)
Definition disk_full (new old : string) : World :=
  {| files := tree_of (package_json new) (cargo_toml old);
     locked := ∅; capacity := Some 0%nat;
     repo := Some (repository (tree_of (package_json new) (cargo_toml old))
                     [release_commit (package_json new) (cargo_toml old)]) |}.

(** A manifest whose package is an array of tables, and the document
    after line 35 has given that array a property named version.  An array
    has no named fields in TOML, so the text for both is the same. *)
Definition array_toml : string :=
  "[[package]]" +:+ newline +:+ "name = " +:+ quoted "prism" +:+ newline
                +:+ "version = " +:+ quoted "0.1.4" +:+ newline.

Definition array_doc (props : list (string * value)) : value :=
  VObj [("package",
         VArr [VObj [("name", VStr "prism"); ("version", VStr "0.1.4")]] props)].

Definition array_lib : Libs :=
  recorded
    [ (package_json "0.1.7", package_doc "0.1.7") ]
    [ (array_toml, array_doc []);
      (array_toml, array_doc [("version", VStr "0.1.7")]) ].

Definition array_package : World :=
  {| files := tree_of (package_json "0.1.7") array_toml;
     locked := ∅; capacity := None;
     repo := Some (repository (tree_of (package_json "0.1.7") array_toml)
                     [release_commit (package_json "0.1.7") array_toml]) |}.

(** A package.json whose version is an object with a toString entry. *)
Definition odd_json : string :=
  "{ " +:+ quoted "version" +:+ ": { " +:+ quoted "toString" +:+ ": 1 } }".

Definition odd_doc : value :=
  VObj [("version", VObj [("toString", VNum "1")])].

Definition odd_lib : Libs :=
  recorded
    [ (odd_json, odd_doc) ]
    [ (cargo_toml "0.1.4", cargo_doc "0.1.4") ].

Definition odd_version : World :=
  {| files := tree_of odd_json (cargo_toml "0.1.4");
     locked := ∅; capacity := None;
     repo := Some (repository (tree_of odd_json (cargo_toml "0.1.4"))
                     [release_commit odd_json (cargo_toml "0.1.4")]) |}.

(** Cargo.toml is not there. *)
Definition no_secondary : World :=
  {| files := {[ ["repo"; "package.json"] := package_json "0.1.7" ]};
     locked := ∅; capacity := None;
     repo := Some (repository ∅ []) |}.

End Demo.

(** * Properties *)

(** ** Paths and commands *)

Lemma join_two (base : path) (a b : string) :
  String.eqb a ".." = false -> String.eqb a "." = false ->
  String.eqb b ".." = false -> String.eqb b "." = false ->
  join base [a; b] = (base ++ [a; b])%list.
Proof.
  intros Ha Ha' Hb Hb'. unfold join. simpl. rewrite Ha, Ha', Hb, Hb'.
  simpl. rewrite rev_involutive, <- app_assoc. reflexivity.
Qed.

Lemma cargoTomlPath_app (dir : path) :
  cargoTomlPath dir = (rootDir dir ++ ["src-tauri"; "Cargo.toml"])%list.
Proof. unfold cargoTomlPath. apply join_two; reflexivity. Qed.

(** The path given to git add, resolved in rootDir, is the file the script
    wrote. *)
Lemma staged_path_is_cargoTomlPath (dir : path) :
  join (rootDir dir) (split_on "/"%char "src-tauri/Cargo.toml") = cargoTomlPath dir.
Proof. reflexivity. Qed.


Lemma shell_git_add (cwd : path) (w : World) :
  shell "git add src-tauri/Cargo.toml" cwd w = git_add cwd "src-tauri/Cargo.toml" w.
Proof. reflexivity. Qed.

Lemma shell_git_amend (cwd : path) (w : World) :
  shell "git commit --amend --no-edit --no-verify" cwd w = git_amend cwd true true w.
Proof. reflexivity. Qed.

(** ** The run up to the write *)

Section Run.

Variable L : Libs.
Variable dir : path.

Lemma main_before_write (w : World) (version cargo : value) (shown data : string) :
  reaches_write L dir w version shown cargo data ->
  main L dir {| world := w; events := [] |} =
  (writeFileSync (cargoTomlPath dir) data ;;;
   shown' <- lift (ToString version) ;;
   console_log ("✅ 已更新 src-tauri/Cargo.toml 版本为 " +:+ shown') ;;;
   try_catch (amend_body dir) amend_handler)
    {| world := w;
       events := [ EvRead (packageJsonPath dir);
                   EvLog ("📦 当前版本: " +:+ shown);
                   EvRead (cargoTomlPath dir) ] |}.
Proof.
  intros [ptext pj version' shown' ctext cargo0 cargo' data' H1 H2 H3 Hs H4 H5 H6 H7].
  unfold main.
  unfold bind at 1. unfold readFileSync at 1. cbn [world events emit].
  rewrite H1.
  unfold bind at 1. rewrite H2. cbn [call ret].
  unfold bind at 1. rewrite H3. cbn [lift ret].
  unfold bind at 1. rewrite Hs. cbn [lift ret].
  unfold bind at 1. cbn [console_log emit world events].
  unfold bind at 1. unfold readFileSync at 1. cbn [world events emit].
  rewrite H4.
  unfold bind at 1. rewrite H5. cbn [call ret].
  unfold bind at 1. rewrite H6. cbn [lift ret].
  unfold bind at 1. rewrite H7. cbn [call ret].
  reflexivity.
Qed.

Lemma reaches_write_shown (w : World) (version cargo : value) (shown data : string) :
  reaches_write L dir w version shown cargo data -> ToString version = inr shown.
Proof. by intros []. Qed.

(** The try/catch block: its exit status and final state are those of
    [amend_outcome]. *)
Lemma try_amend (s : State) :
  try_catch (amend_body dir) amend_handler s =
  (match fst (amend_outcome (rootDir dir) s) with
   | 0 => inr tt
   | code => inl (Exit code)
   end, snd (amend_outcome (rootDir dir) s)).
Proof.
  unfold try_catch, amend_body, amend_outcome.
  unfold bind at 1. unfold execSync at 1.
  rewrite shell_git_add.
  destruct (git_add (rootDir dir) "src-tauri/Cargo.toml" (world s)) as [err|w2].
  - unfold amend_handler, bind, console_error, process_exit, emit, diagnostic, add_cmd.
    cbn [world events message fst snd]. rewrite <- app_assoc. reflexivity.
  - unfold bind at 1. unfold execSync at 1. cbn [world events emit].
    rewrite shell_git_amend.
    destruct (git_amend (rootDir dir) true true w2) as [err|w3].
    + unfold amend_handler, bind, console_error, process_exit, emit, diagnostic,
        add_cmd, amend_cmd.
      cbn [world events message fst snd]. rewrite <- !app_assoc. reflexivity.
    + unfold bind, console_log, emit, add_cmd, amend_cmd.
      cbn [world events fst snd]. rewrite <- !app_assoc. reflexivity.
Qed.

(** A run that gets to the write and can write: the file is replaced,
    and the rest is the try/catch block. *)
Lemma node_after_write (w : World) (version cargo : value) (shown data : string) :
  reaches_write L dir w version shown cargo data ->
  cargoTomlPath dir ∉ locked w ->
  fits w data = true ->
  node L dir w = amend_outcome (rootDir dir) (sync_state dir w shown data).
Proof.
  intros Hr Hl Hfit. unfold node. rewrite (main_before_write _ _ _ _ _ Hr).
  unfold bind at 1. unfold writeFileSync at 1. cbn [world events emit].
  destruct (decide (cargoTomlPath dir ∈ locked w)) as [Hin|_]; [done|].
  rewrite Hfit.
  unfold bind at 1. rewrite (reaches_write_shown _ _ _ _ _ Hr). cbn [lift ret].
  unfold bind at 1. cbn [console_log emit world events].
  rewrite try_amend.
  match goal with |- context [amend_outcome ?r ?s] =>
    change s with (sync_state dir w shown data);
    destruct (amend_outcome r (sync_state dir w shown data)) as [code s'] eqn:E
  end.
  cbn [fst snd].
  assert (code = 0 \/ code = 1) as [->| ->]; [|reflexivity..].
  unfold amend_outcome in E.
  repeat match type of E with
         | context [match ?x with _ => _ end] => destruct x
         end; inversion E; auto.
Qed.

(** A run that gets to the write but may not open the file: the exception
    of writeFileSync is not caught, and the file is untouched. *)
Lemma node_write_refused (w : World) (version cargo : value) (shown data : string) :
  reaches_write L dir w version shown cargo data ->
  cargoTomlPath dir ∈ locked w ->
  node L dir w =
  (1, {| world := w;
         events := [ EvRead (packageJsonPath dir);
                     EvLog ("📦 当前版本: " +:+ shown);
                     EvRead (cargoTomlPath dir);
                     EvWrite (cargoTomlPath dir) data;
                     EvUncaught {| kind := FsWriteError;
                                   message := "EACCES: permission denied" |} ] |}).
Proof.
  intros Hr Hl. unfold node. rewrite (main_before_write _ _ _ _ _ Hr).
  unfold bind at 1. unfold writeFileSync at 1. cbn [world events emit].
  destruct (decide (cargoTomlPath dir ∈ locked w)) as [_|Hn]; [|done].
  reflexivity.
Qed.

(** A run whose write is cut short: the exception is not caught either,
    and the file is left with the bytes that went in. *)
Lemma node_write_cut_short (w : World) (version cargo : value) (shown data : string) :
  reaches_write L dir w version shown cargo data ->
  cargoTomlPath dir ∉ locked w ->
  fits w data = false ->
  node L dir w =
  (1, {| world := written w (cargoTomlPath dir)
                    (String.substring 0 (default 0%nat (capacity w)) data);
         events := [ EvRead (packageJsonPath dir);
                     EvLog ("📦 当前版本: " +:+ shown);
                     EvRead (cargoTomlPath dir);
                     EvWrite (cargoTomlPath dir) data;
                     EvUncaught {| kind := FsWriteError;
                                   message := "ENOSPC: no space left on device" |} ] |}).
Proof.
  intros Hr Hl Hfit. unfold node. rewrite (main_before_write _ _ _ _ _ Hr).
  unfold bind at 1. unfold writeFileSync at 1. cbn [world events emit].
  destruct (decide (cargoTomlPath dir ∈ locked w)) as [Hin|_]; [done|].
  rewrite Hfit. reflexivity.
Qed.

End Run.

(** ** Objects *)

Lemma lookup_set_field_eq (k : string) (v : value) (fs : list (string * value)) :
  lookup_field k (set_field k v fs) = Some v.
Proof.
  induction fs as [|[k' v'] fs IH]; simpl.
  - by rewrite String.eqb_refl.
  - destruct (String.eqb k k') eqn:E; simpl; rewrite E; [done | apply IH].
Qed.

Lemma lookup_set_field_ne (k k' : string) (v : value) (fs : list (string * value)) :
  k <> k' -> lookup_field k' (set_field k v fs) = lookup_field k' fs.
Proof.
  intros Hne. induction fs as [|[k0 v0] fs IH]; simpl.
  - destruct (String.eqb k' k) eqn:E; [|done].
    apply String.eqb_eq in E. congruence.
  - destruct (String.eqb k k0) eqn:E; simpl.
    + apply String.eqb_eq in E. subst k0.
      destruct (String.eqb k' k) eqn:E'; [|done].
      apply String.eqb_eq in E'. congruence.
    + by rewrite IH.
Qed.

(** An assignment to a key that is there changes no key and no position. *)
Lemma set_field_keys (k : string) (v v0 : value) (fs : list (string * value)) :
  lookup_field k fs = Some v0 ->
  map fst (set_field k v fs) = map fst fs.
Proof.
  induction fs as [|[k' v'] fs IH]; simpl; [done|].
  destruct (String.eqb k k') eqn:E; simpl; [done|].
  intros H. by rewrite IH.
Qed.

(** The assignment on a document that has a package table. *)
Lemma assign_package_table (cfs pfs : list (string * value)) (version : value) :
  lookup_field "package" cfs = Some (VObj pfs) ->
  assign_package_version (VObj cfs) version =
  inr (VObj (set_field "package" (VObj (set_field "version" version pfs)) cfs)).
Proof.
  intros H. unfold assign_package_version, get. rewrite H. reflexivity.
Qed.

(** Line 35 throws exactly when the document has no package entry or has
    one that is not an object.  On an array or a date it does not throw:
    the assignment adds a named property to that object. *)
Lemma assignment_throws_iff (cfs : list (string * value)) (version : value) :
  (exists e, assign_package_version (VObj cfs) version = inl e) <->
  is_object (default VUndefined (lookup_field "package" cfs)) = false.
Proof.
  unfold assign_package_version, get.
  destruct (default VUndefined (lookup_field "package" cfs)); cbn; split;
    try done; try (intros _; eexists; reflexivity); by intros [e He].
Qed.

(** Frame: in the document given to stringify, every field at a path that
    does not start with package.version is the field that parse returned. *)
Lemma assign_frame (cargo cargo' version : value) (p : list string) :
  assign_package_version cargo version = inr cargo' ->
  (forall q, p <> ("package" :: "version" :: q)%list) ->
  p <> [] -> p <> ["package"] ->
  lookup_path p cargo' = lookup_path p cargo.
Proof.
  unfold assign_package_version. intros H Hp Hnil Hpkg.
  destruct (get cargo "package") as [e|pkg] eqn:Hg; [done|].
  destruct (put pkg "version" version) as [e|pkg'] eqn:Hput; [done|].
  destruct p as [|k p]; [done|].
  destruct cargo as [| | | | | | |cfs]; simplify_eq; try done.
  cbn [lookup_path]. destruct (decide (k = "package")) as [->|Hk].
  - rewrite lookup_set_field_eq.
    unfold get in Hg. simplify_eq.
    destruct (lookup_field "package" cfs) as [pkg|] eqn:Hl; [|done].
    cbn [default] in Hput.
    destruct p as [|k' p]; [done|].
    destruct pkg; cbn in Hput; simplify_eq; cbn [lookup_path]; try done.
    rewrite lookup_set_field_ne; [done|].
    intros <-. by apply (Hp p).
  - rewrite lookup_set_field_ne; [done|congruence].
Qed.

(** The text written depends on the parsed document and the version alone:
    two manifests that parse to the same document are rewritten to the
    same text. *)
Lemma written_text_from_document (L : Libs) (dir : path) (w1 w2 : World)
    (version cargo : value) (s1 s2 d1 d2 : string) :
  reaches_write L dir w1 version s1 cargo d1 ->
  reaches_write L dir w2 version s2 cargo d2 ->
  d1 = d2.
Proof.
  intros H1 H2. inversion H1. inversion H2. congruence.
Qed.

(** ** The repository *)

Lemma git_add_files (cwd : path) (ps : string) (w w' : World) :
  git_add cwd ps w = inr w' -> files w' = files w /\ locked w' = locked w.
Proof.
  unfold git_add. intros H.
  repeat match type of H with
         | context [match ?x with _ => _ end] => destruct x
         end; by simplify_eq.
Qed.

Lemma git_amend_files (cwd : path) (e v : bool) (w w' : World) :
  git_amend cwd e v w = inr w' -> files w' = files w /\ locked w' = locked w.
Proof.
  unfold git_amend. intros H.
  repeat match type of H with
         | context [match ?x with _ => _ end] => destruct x
         end; by simplify_eq.
Qed.

(** Neither command touches the working tree, whatever the outcome. *)
Lemma amend_outcome_files (root : path) (s : State) :
  files (world (snd (amend_outcome root s))) = files (world s).
Proof.
  unfold amend_outcome.
  destruct (git_add root _ (world s)) as [err|w2] eqn:Ha; [done|].
  apply git_add_files in Ha as [Ha _].
  destruct (git_amend root true true w2) as [err|w3] eqn:Hc; simpl; [done|].
  apply git_amend_files in Hc as [Hc _]. congruence.
Qed.

Lemma amend_outcome_code (root : path) (s : State) :
  fst (amend_outcome root s) = 0 \/ fst (amend_outcome root s) = 1.
Proof.
  unfold amend_outcome.
  repeat match goal with
         | |- context [match ?x with _ => _ end] => destruct x
         end; simpl; auto.
Qed.


(** ** Runs that succeed *)

Ltac run_main :=
  unfold node, main, bind, readFileSync, call, lift, ret, throw, console_log, emit;
  cbn [world events].

Ltac feed H := rewrite H; cbn [world events].

(** A run that exits with status 0 went through every stage. *)
Lemma node_success (L : Libs) (dir : path) (w : World) (s : State) :
  node L dir w = (0, s) ->
  exists version shown cargo data,
    reaches_write L dir w version shown cargo data /\
    (cargoTomlPath dir ∉ locked w) /\
    fits w data = true /\
    amend_outcome (rootDir dir) (sync_state dir w shown data) = (0, s).
Proof.
  intros Hrun.
  destruct (files w !! packageJsonPath dir) as [ptext|] eqn:H1;
    [|revert Hrun; run_main; feed H1; discriminate].
  destruct (JSON_parse L ptext) as [msg|packageJson] eqn:H2;
    [revert Hrun; run_main; feed H1; feed H2; discriminate|].
  destruct (get packageJson "version") as [e|version] eqn:H3;
    [revert Hrun; run_main; feed H1; feed H2; feed H3; discriminate|].
  destruct (ToString version) as [e|shown] eqn:Hs;
    [revert Hrun; run_main; feed H1; feed H2; feed H3; feed Hs; discriminate|].
  destruct (files w !! cargoTomlPath dir) as [ctext|] eqn:H4;
    [|revert Hrun; run_main; feed H1; feed H2; feed H3; feed Hs; feed H4;
      discriminate].
  destruct (parse L ctext) as [msg|cargo] eqn:H5;
    [revert Hrun; run_main; feed H1; feed H2; feed H3; feed Hs; feed H4; feed H5;
     discriminate|].
  destruct (assign_package_version cargo version) as [e|cargo'] eqn:H6;
    [revert Hrun; run_main; feed H1; feed H2; feed H3; feed Hs; feed H4; feed H5;
     feed H6; discriminate|].
  destruct (stringify L cargo') as [msg|data] eqn:H7;
    [revert Hrun; run_main; feed H1; feed H2; feed H3; feed Hs; feed H4; feed H5;
     feed H6; feed H7; discriminate|].
  assert (Hr : reaches_write L dir w version shown cargo data)
    by (econstructor; eauto).
  exists version, shown, cargo, data. split; [done|].
  destruct (decide (cargoTomlPath dir ∈ locked w)) as [Hl|Hl].
  { rewrite (node_write_refused _ _ _ _ _ _ _ Hr Hl) in Hrun. discriminate. }
  destruct (fits w data) eqn:Hfit.
  - split; [done|]. split; [done|].
    by rewrite <- (node_after_write _ _ _ _ _ _ _ Hr Hl Hfit).
  - rewrite (node_write_cut_short _ _ _ _ _ _ _ Hr Hl Hfit) in Hrun. discriminate.
Qed.

(** ** The recorded library *)

Lemma value_eqb_eq : forall a b : value, value_eqb a b = true -> a = b.
Proof.
  fix IH 1. intros a b.
  destruct a as [| |x|x|x|x t p|x p|p], b as [| |y|y|y|y u q|y q|q];
    cbn [value_eqb]; try discriminate; try reflexivity.
  - intros H. apply Bool.eqb_prop in H. by subst.
  - intros H. apply String.eqb_eq in H. by subst.
  - intros H. apply String.eqb_eq in H. by subst.
  - intros H. apply andb_true_iff in H as [H1 H2].
    apply andb_true_iff in H1 as [H1 H1'].
    apply String.eqb_eq in H1. apply String.eqb_eq in H1'. subst y u. f_equal.
    revert q H2. induction p as [|[k v] p IHp]; intros [|[k' v'] q] H;
      try discriminate; [done|].
    apply andb_true_iff in H as [H H3]. apply andb_true_iff in H as [H1 H2].
    apply String.eqb_eq in H1. apply IH in H2. apply IHp in H3. by subst.
  - intros H. apply andb_true_iff in H as [H1 H2]. f_equal.
    + clear H2. revert y H1. induction x as [|v x IHx]; intros [|v' y] H;
        try discriminate; [done|].
      apply andb_true_iff in H as [H1 H2]. apply IH in H1. apply IHx in H2.
      by subst.
    + clear H1. revert q H2. induction p as [|[k v] p IHp]; intros [|[k' v'] q] H;
        try discriminate; [done|].
      apply andb_true_iff in H as [H H3]. apply andb_true_iff in H as [H1 H2].
      apply String.eqb_eq in H1. apply IH in H2. apply IHp in H3. by subst.
  - intros H. f_equal.
    revert q H. induction p as [|[k v] p IHp]; intros [|[k' v'] q] H;
      try discriminate; [done|].
    apply andb_true_iff in H as [H H3]. apply andb_true_iff in H as [H1 H2].
    apply String.eqb_eq in H1. apply IH in H2. apply IHp in H3. by subst.
Qed.

Lemma doc_lookup_Some (v : value) (table : list (string * value)) (t : string) :
  doc_lookup v table = Some t -> In (t, v) table.
Proof.
  induction table as [|[t' v'] table IHt]; simpl; [done|].
  destruct (value_eqb v v') eqn:E.
  - intros [= <-]. apply value_eqb_eq in E. subst. by left.
  - intros H. right. by apply IHt.
Qed.

(** A recorded library with a consistent table reads back what it wrote. *)
Lemma recorded_strings_survive (json toml : list (string * value)) :
  consistent toml = true -> strings_survive (recorded json toml).
Proof.
  intros Hc d text H. cbn [recorded stringify parse] in *.
  destruct (doc_lookup d toml) as [t|] eqn:E; [|discriminate].
  injection H as ->. apply doc_lookup_Some in E.
  unfold consistent in Hc. rewrite forallb_forall in Hc.
  specialize (Hc _ E). cbn [fst snd] in Hc.
  destruct (text_lookup text toml) as [d'|]; [|discriminate].
  apply value_eqb_eq in Hc. subst d'. by exists d.
Qed.

Lemma demo_strings_survive : strings_survive Demo.lib.
Proof. apply recorded_strings_survive. vm_compute. reflexivity. Qed.

(** The premises of [reaches_write] on a concrete world, by evaluation. *)
Ltac reach ptext pj version shown ctext cargo cargo' :=
  apply (ReachesWrite _ _ _ ptext pj version shown ctext cargo cargo');
  vm_compute; reflexivity.

(** ** The version reaches the secondary manifest *)

(** The library of the array manifest reads strings back as well: the
    patched document has no string at a path of tables. *)
Lemma array_lib_strings_survive : strings_survive Demo.array_lib.
Proof.
  intros d text H. cbn [Demo.array_lib recorded stringify parse doc_lookup] in *.
  destruct (value_eqb d (Demo.array_doc [])) eqn:E1.
  - apply value_eqb_eq in E1. subst d. injection H as <-.
    exists (Demo.array_doc []). split; [vm_compute; reflexivity|done].
  - destruct (value_eqb d (Demo.array_doc [("version", VStr "0.1.7")])) eqn:E2;
      [|discriminate].
    apply value_eqb_eq in E2. subst d. injection H as <-.
    exists (Demo.array_doc []). split; [vm_compute; reflexivity|].
    intros [|k [|k' p]] s; cbn [lookup_path Demo.array_doc lookup_field];
      try discriminate; destruct (String.eqb k "package"); discriminate.
Qed.

(** C1, as the script has it.  Let package.json hold the version string
    V and let Cargo.toml parse to a document with a package table.  After
    a run that exits with status 0, the text of Cargo.toml on disk parses
    to a document whose package.version is V.  smol-toml is asked for one
    thing: strings at table paths survive stringify followed by parse. *)
Theorem written_manifest_has_primary_version
    (L : Libs) (dir : path) (w : World) (s : State)
    (ptext ctext V : string) (packageJson cargo : value)
    (pfs : list (string * value)) :
  strings_survive L ->
  files w !! packageJsonPath dir = Some ptext ->
  JSON_parse L ptext = inr packageJson ->
  get packageJson "version" = inr (VStr V) ->
  files w !! cargoTomlPath dir = Some ctext ->
  parse L ctext = inr cargo ->
  lookup_path ["package"] cargo = Some (VObj pfs) ->
  node L dir w = (0, s) ->
  exists text doc,
    files (world s) !! cargoTomlPath dir = Some text /\
    parse L text = inr doc /\
    lookup_path ["package"; "version"] doc = Some (VStr V).
Proof.
  intros Hlib H1 H2 H3 H4 H5 Hpkg Hrun.
  destruct (node_success _ _ _ _ Hrun)
    as (version & shown & cargo0 & data & Hr & Hl & Hfit & Hout).
  inversion Hr as [ptext' pj' v' sh' ctext' c' cargo' d' E1 E2 E3 Es E4 E5 E6 E7]; subst.
  rewrite H1 in E1. injection E1 as <-. rewrite H2 in E2. injection E2 as <-.
  rewrite H3 in E3. injection E3 as <-.
  rewrite H4 in E4. injection E4 as <-. rewrite H5 in E5. injection E5 as <-.
  destruct cargo as [| | | | | | |cfs]; try discriminate.
  cbn [lookup_path] in Hpkg.
  destruct (lookup_field "package" cfs) as [pkg|] eqn:Hf; [|discriminate].
  injection Hpkg as ->.
  rewrite (assign_package_table _ _ _ Hf) in E6. injection E6 as <-.
  destruct (Hlib _ _ E7) as (doc & Hparse & Hkeep).
  exists data, doc. split; [|split; [exact Hparse|]].
  - pose proof (amend_outcome_files (rootDir dir) (sync_state dir w shown data))
      as Hfiles.
    rewrite Hout in Hfiles. cbn [snd world sync_state written files] in Hfiles.
    rewrite Hfiles. apply lookup_insert_eq.
  - apply Hkeep. cbn [lookup_path].
    rewrite lookup_set_field_eq. cbn [lookup_path].
    by rewrite lookup_set_field_eq.
Qed.

Lemma written_manifest_has_primary_version_witness :
  exists text doc,
    files (world (snd (node Demo.lib Demo.dir (Demo.after_release "0.1.7" "0.1.4"))))
      !! cargoTomlPath Demo.dir = Some text /\
    parse Demo.lib text = inr doc /\
    lookup_path ["package"; "version"] doc = Some (VStr "0.1.7").
Proof.
  apply (written_manifest_has_primary_version Demo.lib Demo.dir
           (Demo.after_release "0.1.7" "0.1.4") _
           (Demo.package_json "0.1.7") (Demo.cargo_toml "0.1.4") "0.1.7"
           (Demo.package_doc "0.1.7") (Demo.cargo_doc "0.1.4")
           [("name", VStr "prism"); ("version", VStr "0.1.4")]).
  - exact demo_strings_survive.
  - vm_compute; reflexivity.
  - vm_compute; reflexivity.
  - vm_compute; reflexivity.
  - vm_compute; reflexivity.
  - vm_compute; reflexivity.
  - vm_compute; reflexivity.
  - vm_compute; reflexivity.
Defined.

(** C1 as stated fails.  package.json holds the version 0.1.7 and
    Cargo.toml declares package as an array of tables.  Line 35 gives the
    array a property named version, which the TOML text cannot carry: the
    run exits with status 0 and prints that Cargo.toml was updated, the
    file on disk is the text it was, and its parsed package.version is not
    0.1.7.  The library reads back every string it is given at a path of
    tables. *)
Lemma array_package_keeps_old_version :
  strings_survive Demo.array_lib /\
  JSON_parse Demo.array_lib (Demo.package_json "0.1.7") = inr (Demo.package_doc "0.1.7") /\
  get (Demo.package_doc "0.1.7") "version" = inr (VStr "0.1.7") /\
  fst (node Demo.array_lib Demo.dir Demo.array_package) = 0 /\
  files (world (snd (node Demo.array_lib Demo.dir Demo.array_package)))
    !! cargoTomlPath Demo.dir = Some Demo.array_toml /\
  parse Demo.array_lib Demo.array_toml = inr (Demo.array_doc []) /\
  lookup_path ["package"; "version"] (Demo.array_doc []) = None /\
  get (VArr [VObj [("name", VStr "prism"); ("version", VStr "0.1.4")]] []) "version"
  = inr VUndefined.
Proof.
  split; [exact array_lib_strings_survive|].
  repeat split; vm_compute; reflexivity.
Qed.

(** C7.  A run that gets as far as the write calls writeFileSync with the
    serialized document, whatever version Cargo.toml had before; when the
    file can be opened and the write is not cut short, the file holds that
    text when the run ends. *)
Theorem write_is_unconditional
    (L : Libs) (dir : path) (w : World) (version cargo : value)
    (shown data : string) :
  reaches_write L dir w version shown cargo data ->
  EvWrite (cargoTomlPath dir) data ∈ events (snd (node L dir w)) /\
  (cargoTomlPath dir ∉ locked w ->
   fits w data = true ->
   files (world (snd (node L dir w))) !! cargoTomlPath dir = Some data).
Proof.
  intros Hr. destruct (decide (cargoTomlPath dir ∈ locked w)) as [Hl|Hl].
  { rewrite (node_write_refused _ _ _ _ _ _ _ Hr Hl). cbn [snd events world].
    split; [|done]. set_solver. }
  destruct (fits w data) eqn:Hfit.
  - rewrite (node_after_write _ _ _ _ _ _ _ Hr Hl Hfit). split.
    + unfold amend_outcome.
      repeat match goal with
             | |- context [match ?x with _ => _ end] => destruct x
             end; cbn [snd events sync_state sync_events]; set_solver.
    + intros _ _. rewrite amend_outcome_files. cbn [world sync_state written files].
      apply lookup_insert_eq.
  - rewrite (node_write_cut_short _ _ _ _ _ _ _ Hr Hl Hfit). cbn [snd events world].
    split; [|done]. set_solver.
Qed.

Lemma write_is_unconditional_witness :
  lookup_path ["package"; "version"] (Demo.cargo_doc "0.1.7") = Some (VStr "0.1.7") /\
  reaches_write Demo.lib Demo.dir (Demo.after_release "0.1.7" "0.1.7")
    (VStr "0.1.7") "0.1.7" (Demo.cargo_doc "0.1.7") (Demo.cargo_toml "0.1.7") /\
  EvWrite (cargoTomlPath Demo.dir) (Demo.cargo_toml "0.1.7")
    ∈ events (snd (node Demo.lib Demo.dir (Demo.after_release "0.1.7" "0.1.7"))).
Proof.
  split; [reflexivity|]. split.
  - reach (Demo.package_json "0.1.7") (Demo.package_doc "0.1.7") (VStr "0.1.7") "0.1.7"
          (Demo.cargo_toml "0.1.7") (Demo.cargo_doc "0.1.7") (Demo.cargo_doc "0.1.7").
  - apply (write_is_unconditional Demo.lib Demo.dir
             (Demo.after_release "0.1.7" "0.1.7") (VStr "0.1.7")
             (Demo.cargo_doc "0.1.7") "0.1.7" (Demo.cargo_toml "0.1.7")).
    reach (Demo.package_json "0.1.7") (Demo.package_doc "0.1.7") (VStr "0.1.7") "0.1.7"
          (Demo.cargo_toml "0.1.7") (Demo.cargo_doc "0.1.7") (Demo.cargo_doc "0.1.7").
Defined.

(** ** Runs that stop before the write *)

(** Induction on values, with the elements of an array in hand. *)
Lemma value_elems_ind (P : value -> Prop) :
  P VUndefined -> P VNull -> (forall b, P (VBool b)) -> (forall r, P (VNum r)) ->
  (forall s, P (VStr s)) -> (forall d t ps, P (VDate d t ps)) ->
  (forall es ps, Forall P es -> P (VArr es ps)) ->
  (forall fs, P (VObj fs)) ->
  forall v, P v.
Proof.
  intros Hu Hn Hb Hr Hs Hd Ha Ho.
  refine (fix IH (v : value) : P v :=
            match v with
            | VUndefined => Hu
            | VNull => Hn
            | VBool b => Hb b
            | VNum r => Hr r
            | VStr s => Hs s
            | VDate d t ps => Hd d t ps
            | VArr es ps =>
                Ha es ps ((fix go (l : list value) : Forall P l :=
                             match l with
                             | [] => @List.Forall_nil _ P
                             | x :: r => @List.Forall_cons _ P x r (IH x) (go r)
                             end) es)
            | VObj fs => Ho fs
            end).
Qed.

(** The one way a template literal fails. *)
Lemma ToString_error (v : value) (e : exn) : ToString v = inl e -> e = not_primitive.
Proof.
  revert e. induction v as [| |b|r|s|d t ps|es ps IH|fs] using value_elems_ind;
    intros e; cbn [ToString].
  - discriminate.
  - discriminate.
  - destruct b; discriminate.
  - discriminate.
  - discriminate.
  - destruct (lookup_field "toString" ps), (lookup_field "valueOf" ps);
      try discriminate. by intros [= <-].
  - destruct (lookup_field "toString" ps); [by intros [= <-]|].
    destruct (lookup_field "join" ps); [discriminate|].
    induction IH as [|x es Hx _ IHes]; [discriminate|].
    destruct (match x with
              | VUndefined | VNull => inr ""
              | _ => ToString x
              end) as [e'|item] eqn:Ex.
    + intros [= <-]. destruct x; try discriminate; by apply Hx.
    + destruct es as [|y es']; [discriminate|].
      match goal with
      | |- match ?j with _ => _ end = _ -> _ => destruct j as [e'|rest] eqn:Hrest
      end; [|discriminate].
      intros [= <-]. by apply IHes.
  - destruct (lookup_field "toString" fs); [by intros [= <-]|discriminate].
Qed.

Lemma get_error (o : value) (k : string) (e : exn) :
  get o k = inl e -> kind e = TypeError.
Proof. destruct o; cbn; intros H; by simplify_eq. Qed.

Lemma assignment_throws_TypeError (cfs : list (string * value)) (version : value) :
  is_object (default VUndefined (lookup_field "package" cfs)) = false ->
  exists e, assign_package_version (VObj cfs) version = inl e /\ kind e = TypeError.
Proof.
  unfold assign_package_version, get.
  destruct (default VUndefined (lookup_field "package" cfs)); cbn; try done;
    intros _; eexists; split; reflexivity.
Qed.

(** C3, as the script has it.  package.json is read and its version is
    printed.  Cargo.toml parses to a document in which package is missing,
    or is a string, a number or a boolean.  The assignment of line 35
    throws a TypeError (the FieldMissingError of the specification), nobody
    catches it, the status is 1, and the world is the one the run started
    in: nothing was written, nothing was run. *)
Theorem missing_package_table_fails
    (L : Libs) (dir : path) (w : World) (ptext ctext shown : string)
    (packageJson version : value) (cfs : list (string * value)) :
  files w !! packageJsonPath dir = Some ptext ->
  JSON_parse L ptext = inr packageJson ->
  get packageJson "version" = inr version ->
  ToString version = inr shown ->
  files w !! cargoTomlPath dir = Some ctext ->
  parse L ctext = inr (VObj cfs) ->
  is_object (default VUndefined (lookup_field "package" cfs)) = false ->
  exists e,
    node L dir w =
    (1, {| world := w;
           events := [ EvRead (packageJsonPath dir);
                       EvLog ("📦 当前版本: " +:+ shown);
                       EvRead (cargoTomlPath dir);
                       EvUncaught e ] |}) /\
    assign_package_version (VObj cfs) version = inl e /\
    kind e = TypeError /\
    taxonomy (kind e) = Some FieldMissingError /\
    files w !! cargoTomlPath dir = Some ctext.
Proof.
  intros H1 H2 H3 Hs H4 H5 H6.
  destruct (assignment_throws_TypeError cfs version H6) as (e & H7 & Hk).
  exists e. split; [|split; [|split; [|split]]].
  - run_main. feed H1. feed H2. feed H3. feed Hs. feed H4. feed H5. feed H7.
    reflexivity.
  - exact H7.
  - exact Hk.
  - by rewrite Hk.
  - exact H4.
Qed.

Lemma missing_package_table_fails_witness :
  exists e,
    node Demo.lib Demo.dir Demo.no_package_table =
    (1, {| world := Demo.no_package_table;
           events := [ EvRead (packageJsonPath Demo.dir);
                       EvLog ("📦 当前版本: " +:+ "0.1.7");
                       EvRead (cargoTomlPath Demo.dir);
                       EvUncaught e ] |}) /\
    assign_package_version
      (VObj [("workspace", VObj [("resolver", VStr "2")])]) (VStr "0.1.7") = inl e /\
    kind e = TypeError /\
    taxonomy (kind e) = Some FieldMissingError /\
    files Demo.no_package_table !! cargoTomlPath Demo.dir = Some Demo.workspace_toml.
Proof.
  apply (missing_package_table_fails Demo.lib Demo.dir Demo.no_package_table
           (Demo.package_json "0.1.7") Demo.workspace_toml "0.1.7"
           (Demo.package_doc "0.1.7") (VStr "0.1.7")
           [("workspace", VObj [("resolver", VStr "2")])]).
  all: vm_compute; reflexivity.
Defined.

(** C3 as stated fails.  Cargo.toml parses and has no package table: its
    package is an array.  An array is an object, so line 35 does not
    throw.  The run exits with status 0, has written Cargo.toml and has
    run both git commands. *)
Lemma array_package_is_not_refused :
  parse Demo.array_lib Demo.array_toml = inr (Demo.array_doc []) /\
  get (Demo.array_doc []) "package"
  = inr (VArr [VObj [("name", VStr "prism"); ("version", VStr "0.1.4")]] []) /\
  lookup_path ["package"; "version"] (Demo.array_doc []) = None /\
  assign_package_version (Demo.array_doc []) (VStr "0.1.7")
  = inr (Demo.array_doc [("version", VStr "0.1.7")]) /\
  fst (node Demo.array_lib Demo.dir Demo.array_package) = 0 /\
  writes (events (snd (node Demo.array_lib Demo.dir Demo.array_package)))
  = [cargoTomlPath Demo.dir] /\
  execs (events (snd (node Demo.array_lib Demo.dir Demo.array_package)))
  = [add_cmd; amend_cmd].
Proof. repeat split; vm_compute; reflexivity. Qed.

(** With a version that can be printed, the run does not stop on it: the
    next things it does are the first log line and the read of
    Cargo.toml. *)
Lemma node_goes_on_to_secondary
    (L : Libs) (dir : path) (w : World) (ptext shown : string)
    (packageJson version : value) :
  files w !! packageJsonPath dir = Some ptext ->
  JSON_parse L ptext = inr packageJson ->
  get packageJson "version" = inr version ->
  ToString version = inr shown ->
  exists rest,
    events (snd (node L dir w)) =
    EvRead (packageJsonPath dir)
      :: EvLog ("📦 当前版本: " +:+ shown)
      :: EvRead (cargoTomlPath dir) :: rest.
Proof.
  intros H1 H2 H3 Hs.
  destruct (files w !! cargoTomlPath dir) as [ctext|] eqn:H4;
    [|run_main; feed H1; feed H2; feed H3; feed Hs; feed H4; eexists; reflexivity].
  destruct (parse L ctext) as [msg|cargo] eqn:H5;
    [run_main; feed H1; feed H2; feed H3; feed Hs; feed H4; feed H5;
     eexists; reflexivity|].
  destruct (assign_package_version cargo version) as [e|cargo'] eqn:H6;
    [run_main; feed H1; feed H2; feed H3; feed Hs; feed H4; feed H5; feed H6;
     eexists; reflexivity|].
  destruct (stringify L cargo') as [msg|data] eqn:H7;
    [run_main; feed H1; feed H2; feed H3; feed Hs; feed H4; feed H5; feed H6;
     feed H7; eexists; reflexivity|].
  assert (Hr : reaches_write L dir w version shown cargo data)
    by (econstructor; eauto).
  destruct (decide (cargoTomlPath dir ∈ locked w)) as [Hl|Hl].
  { rewrite (node_write_refused _ _ _ _ _ _ _ Hr Hl). eexists. reflexivity. }
  destruct (fits w data) eqn:Hfit.
  - rewrite (node_after_write _ _ _ _ _ _ _ Hr Hl Hfit). unfold amend_outcome.
    repeat match goal with
           | |- context [match ?x with _ => _ end] => destruct x
           end; cbn [snd events sync_state sync_events app]; eexists; reflexivity.
  - rewrite (node_write_cut_short _ _ _ _ _ _ _ Hr Hl Hfit). eexists. reflexivity.
Qed.

(** C4, as the script has it.  The run stops before anything is written
    or run, with the world unchanged and the one read in the trace, in four
    cases: package.json is missing (a read error); JSON.parse rejects it (a
    read error); it parses to null, so that reading its version throws a
    TypeError (the FieldMissingError of the specification); or its version
    cannot be converted to a string, so that the template literal of line
    26 throws a TypeError.  Nothing else is asked of the version: when it
    can be printed (undefined, the empty string, a number), the run logs it
    and goes on to read Cargo.toml. *)
Theorem unreadable_primary_fails_before_write
    (L : Libs) (dir : path) (w : World) :
  (files w !! packageJsonPath dir = None ->
   exists e,
     node L dir w =
     (1, {| world := w; events := [EvRead (packageJsonPath dir); EvUncaught e] |}) /\
     kind e = FsReadError /\ taxonomy (kind e) = Some ReadError) /\
  (forall ptext msg,
      files w !! packageJsonPath dir = Some ptext ->
      JSON_parse L ptext = inl msg ->
      exists e,
        node L dir w =
        (1, {| world := w; events := [EvRead (packageJsonPath dir); EvUncaught e] |}) /\
        kind e = JsonSyntaxError /\ taxonomy (kind e) = Some ReadError) /\
  (forall ptext packageJson e,
      files w !! packageJsonPath dir = Some ptext ->
      JSON_parse L ptext = inr packageJson ->
      get packageJson "version" = inl e ->
      node L dir w =
      (1, {| world := w; events := [EvRead (packageJsonPath dir); EvUncaught e] |}) /\
      kind e = TypeError /\ taxonomy (kind e) = Some FieldMissingError) /\
  (forall ptext packageJson version e,
      files w !! packageJsonPath dir = Some ptext ->
      JSON_parse L ptext = inr packageJson ->
      get packageJson "version" = inr version ->
      ToString version = inl e ->
      node L dir w =
      (1, {| world := w; events := [EvRead (packageJsonPath dir); EvUncaught e] |}) /\
      kind e = TypeError) /\
  (forall ptext packageJson version shown,
      files w !! packageJsonPath dir = Some ptext ->
      JSON_parse L ptext = inr packageJson ->
      get packageJson "version" = inr version ->
      ToString version = inr shown ->
      exists rest,
        events (snd (node L dir w)) =
        EvRead (packageJsonPath dir)
          :: EvLog ("📦 当前版本: " +:+ shown)
          :: EvRead (cargoTomlPath dir) :: rest).
Proof.
  split; [|split; [|split; [|split]]].
  - intros H1. eexists. split; [run_main; feed H1; reflexivity|]. done.
  - intros ptext msg H1 H2. eexists.
    split; [run_main; feed H1; feed H2; reflexivity|]. done.
  - intros ptext pj e H1 H2 H3.
    split; [run_main; feed H1; feed H2; feed H3; reflexivity|].
    rewrite (get_error _ _ _ H3). done.
  - intros ptext pj version e H1 H2 H3 Hs.
    split; [run_main; feed H1; feed H2; feed H3; feed Hs; reflexivity|].
    by rewrite (ToString_error _ _ Hs).
  - intros ptext pj version shown. apply node_goes_on_to_secondary.
Qed.

Lemma unreadable_primary_fails_before_write_witness :
  (exists e,
      node Demo.lib Demo.dir Demo.no_primary =
      (1, {| world := Demo.no_primary;
             events := [EvRead (packageJsonPath Demo.dir); EvUncaught e] |}) /\
      kind e = FsReadError /\ taxonomy (kind e) = Some ReadError) /\
  (node Demo.odd_lib Demo.dir Demo.odd_version =
   (1, {| world := Demo.odd_version;
          events := [EvRead (packageJsonPath Demo.dir); EvUncaught not_primitive] |}) /\
   kind not_primitive = TypeError) /\
  (exists rest,
      events (snd (node Demo.lib Demo.dir (Demo.after_release "" "0.1.4"))) =
      EvRead (packageJsonPath Demo.dir)
        :: EvLog ("📦 当前版本: " +:+ "")
        :: EvRead (cargoTomlPath Demo.dir) :: rest).
Proof.
  split; [|split].
  - apply (proj1 (unreadable_primary_fails_before_write Demo.lib Demo.dir Demo.no_primary)).
    vm_compute. reflexivity.
  - apply (proj1 (proj2 (proj2 (proj2
             (unreadable_primary_fails_before_write Demo.odd_lib Demo.dir
                Demo.odd_version))))
             Demo.odd_json Demo.odd_doc (VObj [("toString", VNum "1")])).
    all: vm_compute; reflexivity.
  - apply (proj2 (proj2 (proj2 (proj2
             (unreadable_primary_fails_before_write Demo.lib Demo.dir
                (Demo.after_release "" "0.1.4")))))
             (Demo.package_json "") (Demo.package_doc "") (VStr "")).
    all: vm_compute; reflexivity.
Defined.

(** C4 as stated fails: package.json parses and its version is the empty
    string, yet the run exits with status 0, has written Cargo.toml (with
    an empty version) and has run both git commands. *)
Lemma empty_version_is_written :
  files (Demo.after_release "" "0.1.4") !! packageJsonPath Demo.dir
    = Some (Demo.package_json "") /\
  JSON_parse Demo.lib (Demo.package_json "") = inr (Demo.package_doc "") /\
  get (Demo.package_doc "") "version" = inr (VStr "") /\
  fst (node Demo.lib Demo.dir (Demo.after_release "" "0.1.4")) = 0 /\
  writes (events (snd (node Demo.lib Demo.dir (Demo.after_release "" "0.1.4"))))
    = [cargoTomlPath Demo.dir] /\
  execs (events (snd (node Demo.lib Demo.dir (Demo.after_release "" "0.1.4"))))
    = [add_cmd; amend_cmd] /\
  files (world (snd (node Demo.lib Demo.dir (Demo.after_release "" "0.1.4"))))
    !! cargoTomlPath Demo.dir = Some (Demo.cargo_toml "").
Proof. repeat split; vm_compute; reflexivity. Qed.

(** ** The console *)

Lemma amend_outcome_success (root : path) (s0 s : State) :
  amend_outcome root s0 = (0, s) ->
  exists w2 w3,
    git_add root "src-tauri/Cargo.toml" (world s0) = inr w2 /\
    git_amend root true true w2 = inr w3 /\
    s = {| world := w3;
           events := events s0 ++ [EvExec add_cmd root; EvExec amend_cmd root;
                                   EvLog "✅ 已将 Cargo.toml 添加到 release commit"] |}.
Proof.
  unfold amend_outcome.
  destruct (git_add root _ (world s0)) as [err|w2] eqn:Ha; [discriminate|].
  destruct (git_amend root true true w2) as [err|w3] eqn:Hc; [discriminate|].
  intros H. injection H as <-. by exists w2, w3.
Qed.

(** C8, as the script has it.  The script returns nothing and never reads
    the version Cargo.toml had.  In a run that exits with status 0 the
    version of package.json can be printed, the console shows three lines,
    and the only version in them is that one. *)
Theorem console_reports_new_version
    (L : Libs) (dir : path) (w : World) (s : State)
    (ptext : string) (packageJson version : value) :
  files w !! packageJsonPath dir = Some ptext ->
  JSON_parse L ptext = inr packageJson ->
  get packageJson "version" = inr version ->
  node L dir w = (0, s) ->
  exists shown,
    ToString version = inr shown /\
    console (events s) =
    [ "📦 当前版本: " +:+ shown;
      "✅ 已更新 src-tauri/Cargo.toml 版本为 " +:+ shown;
      "✅ 已将 Cargo.toml 添加到 release commit" ].
Proof.
  intros H1 H2 H3 Hrun.
  destruct (node_success _ _ _ _ Hrun)
    as (version' & shown & cargo & data & Hr & Hl & Hfit & Hout).
  inversion Hr as [ptext' pj' v' sh' ctext' c' cargo' d' E1 E2 E3 Es E4 E5 E6 E7]; subst.
  rewrite H1 in E1. injection E1 as <-. rewrite H2 in E2. injection E2 as <-.
  rewrite H3 in E3. injection E3 as <-.
  apply amend_outcome_success in Hout as (w2 & w3 & _ & _ & ->).
  exists shown. split; [exact Es|reflexivity].
Qed.

Lemma console_reports_new_version_witness :
  exists shown,
    ToString (VStr "0.1.7") = inr shown /\
    console (events (snd (node Demo.lib Demo.dir (Demo.after_release "0.1.7" "0.1.4")))) =
    [ "📦 当前版本: " +:+ shown;
      "✅ 已更新 src-tauri/Cargo.toml 版本为 " +:+ shown;
      "✅ 已将 Cargo.toml 添加到 release commit" ].
Proof.
  apply (console_reports_new_version Demo.lib Demo.dir
           (Demo.after_release "0.1.7" "0.1.4") _
           (Demo.package_json "0.1.7") (Demo.package_doc "0.1.7") (VStr "0.1.7")).
  all: vm_compute; reflexivity.
Defined.

(** C8 as stated fails: Cargo.toml said 0.1.4 and package.json says 0.1.7;
    the run exits with status 0 and no line of its output mentions 0.1.4. *)
Lemma old_version_is_not_reported :
  parse Demo.lib (Demo.cargo_toml "0.1.4") = inr (Demo.cargo_doc "0.1.4") /\
  lookup_path ["package"; "version"] (Demo.cargo_doc "0.1.4") = Some (VStr "0.1.4") /\
  fst (node Demo.lib Demo.dir (Demo.after_release "0.1.7" "0.1.4")) = 0 /\
  existsb (contains "0.1.4")
    (console (events (snd (node Demo.lib Demo.dir
                             (Demo.after_release "0.1.7" "0.1.4"))))) = false /\
  forallb (contains "0.1.7")
    (firstn 2 (console (events (snd (node Demo.lib Demo.dir
                                       (Demo.after_release "0.1.7" "0.1.4")))))) = true.
Proof. repeat split; vm_compute; reflexivity. Qed.

(** ** The commit step *)

Lemma git_add_inv (cwd : path) (ps : string) (w w2 : World) :
  git_add cwd ps w = inr w2 ->
  exists r c,
    repo w = Some r /\
    files w !! join cwd (split_on "/"%char ps) = Some c /\
    w2 = with_repo w (with_index r (<[join cwd (split_on "/"%char ps) := c]> (index r))).
Proof.
  unfold git_add. intros H.
  destruct (repo w) as [r|]; [|discriminate].
  destruct (negb (is_prefix (worktree r) cwd)); [discriminate|].
  destruct (negb (is_prefix (worktree r) _)); [discriminate|].
  destruct (files w !! _) as [c|] eqn:Hf; [|discriminate].
  injection H as <-. by exists r, c.
Qed.


Lemma written_lookup (w : World) (p : path) (data : string) :
  files (written w p data) !! p = Some data.
Proof. cbn [written files]. apply lookup_insert_eq. Qed.

(** Staging the manifest right after the write stages the text written. *)
Lemma stage_after_write (dir : path) (w w2 : World) (data : string) :
  shell add_cmd (rootDir dir) (written w (cargoTomlPath dir) data) = inr w2 ->
  exists r,
    repo w = Some r /\
    w2 = with_repo (written w (cargoTomlPath dir) data)
           (with_index r (<[cargoTomlPath dir := data]> (index r))).
Proof.
  unfold add_cmd. rewrite shell_git_add. intros H.
  apply git_add_inv in H as (r & c & Hr & Hf & ->).
  rewrite staged_path_is_cargoTomlPath in *.
  rewrite written_lookup in Hf. injection Hf as <-.
  by exists r.
Qed.



(** C10.  Staging succeeds and the amend that follows fails: the catch
    block prints the diagnostic and the process exits with status 1.  The
    trace ends there, and the world is the one staging left: the manifest
    on disk holds the text written, and the index holds that same text at
    the manifest path. *)
Theorem failed_amend_keeps_write_and_stage
    (L : Libs) (dir : path) (w w2 : World) (version cargo : value)
    (shown data stderr : string) :
  reaches_write L dir w version shown cargo data ->
  cargoTomlPath dir ∉ locked w ->
  fits w data = true ->
  shell add_cmd (rootDir dir) (written w (cargoTomlPath dir) data) = inr w2 ->
  shell amend_cmd (rootDir dir) w2 = inl stderr ->
  node L dir w =
  (1, {| world := w2;
         events := sync_events dir shown data ++
                   [ EvExec add_cmd (rootDir dir);
                     EvExec amend_cmd (rootDir dir);
                     EvError (diagnostic amend_cmd stderr) ] |}) /\
  files w2 !! cargoTomlPath dir = Some data /\
  exists r2, repo w2 = Some r2 /\ index r2 !! cargoTomlPath dir = Some data.
Proof.
  intros Hr Hl Hfit Hadd Hamend.
  rewrite (node_after_write _ _ _ _ _ _ _ Hr Hl Hfit).
  destruct (stage_after_write _ _ _ _ Hadd) as (r & Hrepo & Hw2).
  unfold add_cmd in Hadd. rewrite shell_git_add in Hadd.
  unfold amend_cmd in Hamend. rewrite shell_git_amend in Hamend.
  unfold amend_outcome. cbn [world events sync_state]. rewrite Hadd, Hamend.
  split; [reflexivity|]. subst w2. split.
  - apply written_lookup.
  - eexists. split; [reflexivity|]. cbn [with_index index]. apply lookup_insert_eq.
Qed.

Lemma failed_amend_keeps_write_and_stage_witness :
  exists w2 stderr,
    node Demo.lib Demo.dir (Demo.mid_merge "0.1.7" "0.1.4") =
    (1, {| world := w2;
           events := sync_events Demo.dir "0.1.7" (Demo.cargo_toml "0.1.7") ++
                     [ EvExec add_cmd (rootDir Demo.dir);
                       EvExec amend_cmd (rootDir Demo.dir);
                       EvError (diagnostic amend_cmd stderr) ] |}) /\
    files w2 !! cargoTomlPath Demo.dir = Some (Demo.cargo_toml "0.1.7") /\
    exists r2, repo w2 = Some r2 /\
               index r2 !! cargoTomlPath Demo.dir = Some (Demo.cargo_toml "0.1.7").
Proof.
  eexists _, _.
  apply (failed_amend_keeps_write_and_stage Demo.lib Demo.dir
           (Demo.mid_merge "0.1.7" "0.1.4") _ (VStr "0.1.7") (Demo.cargo_doc "0.1.4")).
  - reach (Demo.package_json "0.1.7") (Demo.package_doc "0.1.7") (VStr "0.1.7") "0.1.7"
          (Demo.cargo_toml "0.1.4") (Demo.cargo_doc "0.1.4") (Demo.cargo_doc "0.1.7").
  - cbn [Demo.mid_merge locked]. apply not_elem_of_empty.
  - reflexivity.
  - vm_compute. reflexivity.
  - vm_compute. reflexivity.
Defined.

(** A run whose try block throws: the catch block prints the message of
    that exception and the process exits with status 1. *)
Lemma node_caught (L : Libs) (dir : path) (w : World) (version cargo : value)
    (shown data : string) (e : exn) (s2 : State) :
  reaches_write L dir w version shown cargo data ->
  cargoTomlPath dir ∉ locked w ->
  fits w data = true ->
  amend_body dir (sync_state dir w shown data) = (inl (Throw e), s2) ->
  node L dir w = (1, emit (EvError ("❌ amend commit 失败:" +:+ " " +:+ message e)) s2).
Proof.
  intros Hr Hl Hfit Hbody. unfold node. rewrite (main_before_write _ _ _ _ _ _ _ Hr).
  unfold bind at 1. unfold writeFileSync at 1. cbn [world events emit].
  destruct (decide (cargoTomlPath dir ∈ locked w)) as [Hin|_]; [done|].
  rewrite Hfit.
  unfold bind at 1. rewrite (reaches_write_shown _ _ _ _ _ _ _ Hr). cbn [lift ret].
  unfold bind at 1. cbn [console_log emit world events].
  unfold try_catch.
  match goal with
  | |- context [amend_body dir ?s] => change s with (sync_state dir w shown data)
  end.
  rewrite Hbody. reflexivity.
Qed.

(** The try block in a repository without a commit: one of the two
    commands fails, so the block throws an error of execSync.  Files are
    as they were, and there is still no commit. *)
Lemma amend_body_without_commit (dir : path) (s1 : State) (r : Repo) :
  repo (world s1) = Some r ->
  history r = [] ->
  exists e s2 rest,
    amend_body dir s1 = (inl (Throw e), s2) /\
    kind e = ExecError /\
    files (world s2) = files (world s1) /\
    (exists r', repo (world s2) = Some r' /\ history r' = []) /\
    events s2 = (events s1 ++ rest)%list /\
    writes rest = [].
Proof.
  intros Hrepo Hh. unfold amend_body.
  unfold bind at 1. unfold execSync at 1. rewrite shell_git_add.
  destruct (git_add _ _ _) as [err|w2] eqn:Hadd.
  - eexists _, _, [EvExec _ _]. split; [reflexivity|]. cbn [world events emit kind].
    repeat split; try done. by exists r.
  - apply git_add_inv in Hadd as (r0 & c & Hr0 & _ & ->).
    rewrite Hrepo in Hr0. injection Hr0 as <-.
    unfold bind at 1. unfold execSync at 1. cbn [world events emit].
    rewrite shell_git_amend.
    assert (exists err, git_amend (rootDir dir) true true
              (with_repo (world s1)
                 (with_index r (<[join (rootDir dir)
                                    (split_on "/"%char "src-tauri/Cargo.toml") := c]>
                                  (index r)))) = inl err) as [err ->].
    { unfold git_amend. cbn [with_repo repo with_index worktree history].
      rewrite Hh. destruct (negb _); eexists; reflexivity. }
    eexists _, _, [EvExec _ _; EvExec _ _]. split; [reflexivity|].
    cbn [world events emit kind with_repo files repo].
    repeat split; try done.
    + eexists. split; [reflexivity|]. exact Hh.
    + by rewrite <- app_assoc.
Qed.

(** C2.  The repository has no commit.  In a run that gets to the write
    and writes, the try block throws: the exception is an error of
    execSync (a VersionControlError of the specification), the catch block
    prints its message and the status is 1.  The failure comes after the
    write in the trace and no write follows it: Cargo.toml holds the text
    written, and the repository still has no commit. *)
Theorem no_commit_fails_after_write
    (L : Libs) (dir : path) (w : World) (r : Repo) (version cargo : value)
    (shown data : string) :
  reaches_write L dir w version shown cargo data ->
  cargoTomlPath dir ∉ locked w ->
  fits w data = true ->
  repo w = Some r ->
  history r = [] ->
  exists e s2 rest,
    amend_body dir (sync_state dir w shown data) = (inl (Throw e), s2) /\
    node L dir w =
    (1, emit (EvError ("❌ amend commit 失败:" +:+ " " +:+ message e)) s2) /\
    kind e = ExecError /\
    taxonomy (kind e) = Some VersionControlError /\
    files (world s2) !! cargoTomlPath dir = Some data /\
    (exists r', repo (world s2) = Some r' /\ history r' = []) /\
    events s2 = (sync_events dir shown data ++ rest)%list /\
    writes rest = [].
Proof.
  intros Hr Hl Hfit Hrepo Hh.
  destruct (amend_body_without_commit dir (sync_state dir w shown data) r Hrepo Hh)
    as (e & s2 & rest & Hbody & Hk & Hf & Hno & Hev & Hw).
  exists e, s2, rest. split; [exact Hbody|].
  split; [by apply (node_caught L dir w version cargo shown data)|].
  split; [exact Hk|]. split; [by rewrite Hk|].
  split; [rewrite Hf; apply written_lookup|]. done.
Qed.

Lemma no_commit_fails_after_write_witness :
  exists e s2 rest,
    amend_body Demo.dir
      (sync_state Demo.dir (Demo.before_first_commit "0.1.7" "0.1.4") "0.1.7"
         (Demo.cargo_toml "0.1.7")) = (inl (Throw e), s2) /\
    node Demo.lib Demo.dir (Demo.before_first_commit "0.1.7" "0.1.4") =
    (1, emit (EvError ("❌ amend commit 失败:" +:+ " " +:+ message e)) s2) /\
    kind e = ExecError /\
    taxonomy (kind e) = Some VersionControlError /\
    files (world s2) !! cargoTomlPath Demo.dir = Some (Demo.cargo_toml "0.1.7") /\
    (exists r', repo (world s2) = Some r' /\ history r' = []) /\
    events s2 = (sync_events Demo.dir "0.1.7" (Demo.cargo_toml "0.1.7") ++ rest)%list /\
    writes rest = [].
Proof.
  apply (no_commit_fails_after_write Demo.lib Demo.dir
           (Demo.before_first_commit "0.1.7" "0.1.4") (Demo.repository ∅ [])
           (VStr "0.1.7") (Demo.cargo_doc "0.1.4")).
  - reach (Demo.package_json "0.1.7") (Demo.package_doc "0.1.7") (VStr "0.1.7") "0.1.7"
          (Demo.cargo_toml "0.1.4") (Demo.cargo_doc "0.1.4") (Demo.cargo_doc "0.1.7").
  - cbn [Demo.before_first_commit locked]. apply not_elem_of_empty.
  - reflexivity.
  - reflexivity.
  - reflexivity.
Defined.

(** * Further properties of the script *)

(** ** Every way a run can go *)

(** A run stops on package.json or on printing its version, stops on
    Cargo.toml before the write, stops on the write, or goes through the
    try/catch block. *)
Lemma node_cases (L : Libs) (dir : path) (w : World) :
  (exists e,
      node L dir w =
      (1, {| world := w;
             events := [EvRead (packageJsonPath dir); EvUncaught e] |})) \/
  (exists shown e,
      node L dir w =
      (1, {| world := w;
             events := [ EvRead (packageJsonPath dir);
                         EvLog ("📦 当前版本: " +:+ shown);
                         EvRead (cargoTomlPath dir);
                         EvUncaught e ] |})) \/
  (exists version shown cargo data,
      reaches_write L dir w version shown cargo data /\
      cargoTomlPath dir ∈ locked w /\
      node L dir w =
      (1, {| world := w;
             events := [ EvRead (packageJsonPath dir);
                         EvLog ("📦 当前版本: " +:+ shown);
                         EvRead (cargoTomlPath dir);
                         EvWrite (cargoTomlPath dir) data;
                         EvUncaught {| kind := FsWriteError;
                                       message := "EACCES: permission denied" |} ] |})) \/
  (exists version shown cargo data,
      reaches_write L dir w version shown cargo data /\
      (cargoTomlPath dir ∉ locked w) /\
      fits w data = false /\
      node L dir w =
      (1, {| world := written w (cargoTomlPath dir)
                        (String.substring 0 (default 0%nat (capacity w)) data);
             events := [ EvRead (packageJsonPath dir);
                         EvLog ("📦 当前版本: " +:+ shown);
                         EvRead (cargoTomlPath dir);
                         EvWrite (cargoTomlPath dir) data;
                         EvUncaught {| kind := FsWriteError;
                                       message := "ENOSPC: no space left on device" |} ] |})) \/
  (exists version shown cargo data,
      reaches_write L dir w version shown cargo data /\
      (cargoTomlPath dir ∉ locked w) /\
      fits w data = true /\
      node L dir w = amend_outcome (rootDir dir) (sync_state dir w shown data)).
Proof.
  destruct (files w !! packageJsonPath dir) as [ptext|] eqn:H1;
    [|left; eexists; run_main; feed H1; reflexivity].
  destruct (JSON_parse L ptext) as [msg|packageJson] eqn:H2;
    [left; eexists; run_main; feed H1; feed H2; reflexivity|].
  destruct (get packageJson "version") as [e|version] eqn:H3;
    [left; eexists; run_main; feed H1; feed H2; feed H3; reflexivity|].
  destruct (ToString version) as [e|shown] eqn:Hs;
    [left; eexists; run_main; feed H1; feed H2; feed H3; feed Hs; reflexivity|].
  right.
  destruct (files w !! cargoTomlPath dir) as [ctext|] eqn:H4;
    [|left; eexists shown, _; run_main; feed H1; feed H2; feed H3; feed Hs; feed H4;
      reflexivity].
  destruct (parse L ctext) as [msg|cargo] eqn:H5;
    [left; eexists shown, _; run_main; feed H1; feed H2; feed H3; feed Hs; feed H4;
     feed H5; reflexivity|].
  destruct (assign_package_version cargo version) as [e|cargo'] eqn:H6;
    [left; eexists shown, _; run_main; feed H1; feed H2; feed H3; feed Hs; feed H4;
     feed H5; feed H6; reflexivity|].
  destruct (stringify L cargo') as [msg|data] eqn:H7;
    [left; eexists shown, _; run_main; feed H1; feed H2; feed H3; feed Hs; feed H4;
     feed H5; feed H6; feed H7; reflexivity|].
  right.
  assert (Hr : reaches_write L dir w version shown cargo data)
    by (econstructor; eauto).
  destruct (decide (cargoTomlPath dir ∈ locked w)) as [Hl|Hl].
  { left. exists version, shown, cargo, data. split; [done|]. split; [done|].
    apply (node_write_refused _ _ _ _ _ _ _ Hr Hl). }
  right. destruct (fits w data) eqn:Hfit.
  - right. exists version, shown, cargo, data. repeat split; try done.
    apply (node_after_write _ _ _ _ _ _ _ Hr Hl Hfit).
  - left. exists version, shown, cargo, data. repeat split; try done.
    apply (node_write_cut_short _ _ _ _ _ _ _ Hr Hl Hfit).
Qed.

(** X1.  Every run is a prefix of one fixed sequence of steps: read
    package.json, log, read Cargo.toml, write Cargo.toml, log, git add,
    git commit --amend, log.  With status 0 the run is the whole sequence.
    With status 1 it is the first n steps followed by one report: an
    uncaught exception when it stops within the first four steps, the
    diagnostic of the catch block when a git command fails.  No step is
    retried and no other file or command is touched. *)
Theorem run_follows_pipeline (L : Libs) (dir : path) (w : World) :
  (fst (node L dir w) = 0 /\
   map step_of (events (snd (node L dir w))) = pipeline dir) \/
  (fst (node L dir w) = 1 /\
   exists n stop,
     map step_of (events (snd (node L dir w))) = (take n (pipeline dir) ++ [stop])%list /\
     ((stop = SUncaught /\ (n = 1 \/ n = 3 \/ n = 4)%nat) \/
      (stop = SError /\ (n = 6 \/ n = 7)%nat))).
Proof.
  destruct (node_cases L dir w)
    as [(e & ->)|[(v & e & ->)|[(v & sh & c & d & _ & _ & ->)|
       [(v & sh & c & d & _ & _ & _ & ->)|(v & sh & c & d & _ & _ & _ & ->)]]]].
  - right. split; [done|]. exists 1%nat, SUncaught. split; [done|]. left. auto.
  - right. split; [done|]. exists 3%nat, SUncaught. split; [done|]. left. auto.
  - right. split; [done|]. exists 4%nat, SUncaught. split; [done|]. left. auto.
  - right. split; [done|]. exists 4%nat, SUncaught. split; [done|]. left. auto.
  - unfold amend_outcome. cbn [world events sync_state].
    destruct (git_add _ _ _) as [err|w2].
    + right. split; [done|]. exists 6%nat, SError. split; [done|]. right. auto.
    + destruct (git_amend _ _ _ w2) as [err|w3].
      * right. split; [done|]. exists 7%nat, SError. split; [done|]. right. auto.
      * left. done.
Qed.

(** ** What a run leaves alone *)

Lemma amend_outcome_locked (root : path) (s : State) :
  locked (world (snd (amend_outcome root s))) = locked (world s).
Proof.
  unfold amend_outcome.
  destruct (git_add root _ (world s)) as [err|w2] eqn:Ha; [done|].
  apply git_add_files in Ha as [_ Ha].
  destruct (git_amend root true true w2) as [err|w3] eqn:Hc; simpl; [done|].
  apply git_amend_files in Hc as [_ Hc]. congruence.
Qed.

(** X2.  Whatever happens in a run, every file other than
    src-tauri/Cargo.toml has at the end the content it had at the start
    (package.json in particular is only read), and no path changes between
    writable and not writable. *)
Theorem other_files_untouched (L : Libs) (dir : path) (w : World) (p : path) :
  p <> cargoTomlPath dir ->
  files (world (snd (node L dir w))) !! p = files w !! p /\
  locked (world (snd (node L dir w))) = locked w.
Proof.
  intros Hp.
  destruct (node_cases L dir w)
    as [(e & ->)|[(v & e & ->)|[(v & sh & c & d & _ & _ & ->)|
       [(v & sh & c & d & _ & _ & _ & ->)|(v & sh & c & d & _ & _ & _ & ->)]]]];
    try done.
  - cbn [snd world written files locked]. split; [|done]. by apply lookup_insert_ne.
  - rewrite amend_outcome_files, amend_outcome_locked.
    cbn [world sync_state written files locked].
    split; [|done]. by apply lookup_insert_ne.
Qed.

Lemma other_files_untouched_witness :
  files (world (snd (node Demo.lib Demo.dir (Demo.after_release "0.1.7" "0.1.4"))))
    !! packageJsonPath Demo.dir
  = files (Demo.after_release "0.1.7" "0.1.4") !! packageJsonPath Demo.dir /\
  locked (world (snd (node Demo.lib Demo.dir (Demo.after_release "0.1.7" "0.1.4"))))
  = locked (Demo.after_release "0.1.7" "0.1.4").
Proof.
  apply (other_files_untouched Demo.lib Demo.dir (Demo.after_release "0.1.7" "0.1.4")
           (packageJsonPath Demo.dir)).
  vm_compute. discriminate.
Defined.

(** X3.  A run that ends on an uncaught exception has status 1, has
    started no git command and has left the repository as it was.  Unless
    the exception is the one of writeFileSync, the world is exactly the
    one the run started in: no file has changed either. *)
Theorem uncaught_exception_stops_before_git
    (L : Libs) (dir : path) (w : World) (e : exn) :
  last (events (snd (node L dir w))) = Some (EvUncaught e) ->
  fst (node L dir w) = 1 /\
  execs (events (snd (node L dir w))) = [] /\
  repo (world (snd (node L dir w))) = repo w /\
  (kind e <> FsWriteError -> world (snd (node L dir w)) = w).
Proof.
  destruct (node_cases L dir w)
    as [(e' & ->)|[(v & e' & ->)|[(v & sh & c & d & _ & _ & ->)|
       [(v & sh & c & d & _ & _ & _ & ->)|(v & sh & c & d & _ & _ & _ & ->)]]]];
    try done.
  - cbn. intros [= <-]. done.
  - unfold amend_outcome. cbn [world events sync_state].
    destruct (git_add _ _ _) as [err|w2]; [cbn; discriminate|].
    destruct (git_amend _ _ _ w2) as [err|w3]; cbn; discriminate.
Qed.

Lemma uncaught_exception_stops_before_git_witness :
  fst (node Demo.lib Demo.dir Demo.no_package_table) = 1 /\
  execs (events (snd (node Demo.lib Demo.dir Demo.no_package_table))) = [] /\
  repo (world (snd (node Demo.lib Demo.dir Demo.no_package_table)))
  = repo Demo.no_package_table /\
  (TypeError <> FsWriteError ->
   world (snd (node Demo.lib Demo.dir Demo.no_package_table)) = Demo.no_package_table).
Proof.
  apply (uncaught_exception_stops_before_git Demo.lib Demo.dir Demo.no_package_table
           {| kind := TypeError;
              message := "Cannot set properties of undefined or null (setting 'version')" |}).
  vm_compute. reflexivity.
Defined.

(** ** Failures between the first log line and the try block *)

(** X4.  writeFileSync is outside the try block.  When the write fails,
    because the file cannot be opened or because the write is cut short,
    the exception is not caught: the status is 1, the error is a write
    error (the WriteError of the specification), the trace ends with the
    write and the report, so the second log line and the diagnostic of the
    catch block are not printed and no git command is started, and the
    repository is as it was.  A file that could not be opened is untouched.
    A write that was cut short leaves Cargo.toml with the bytes that went
    in, which is the empty file when none did. *)
Theorem write_failure_stops_before_git
    (L : Libs) (dir : path) (w : World) (version cargo : value)
    (shown data : string) :
  reaches_write L dir w version shown cargo data ->
  cargoTomlPath dir ∈ locked w \/ fits w data = false ->
  exists e,
    fst (node L dir w) = 1 /\
    events (snd (node L dir w)) =
    [ EvRead (packageJsonPath dir);
      EvLog ("📦 当前版本: " +:+ shown);
      EvRead (cargoTomlPath dir);
      EvWrite (cargoTomlPath dir) data;
      EvUncaught e ] /\
    kind e = FsWriteError /\
    taxonomy (kind e) = Some WriteError /\
    repo (world (snd (node L dir w))) = repo w /\
    (cargoTomlPath dir ∈ locked w -> world (snd (node L dir w)) = w) /\
    (cargoTomlPath dir ∉ locked w ->
     files (world (snd (node L dir w))) !! cargoTomlPath dir =
     Some (String.substring 0 (default 0%nat (capacity w)) data)).
Proof.
  intros Hr Hfail.
  destruct (decide (cargoTomlPath dir ∈ locked w)) as [Hl|Hl].
  - rewrite (node_write_refused _ _ _ _ _ _ _ Hr Hl). eexists.
    repeat split; try done.
  - destruct Hfail as [Hl'|Hfit]; [done|].
    rewrite (node_write_cut_short _ _ _ _ _ _ _ Hr Hl Hfit). eexists.
    repeat split; try done. intros _. apply written_lookup.
Qed.

Lemma write_failure_stops_before_git_witness :
  (exists e,
      fst (node Demo.lib Demo.dir (Demo.read_only "0.1.7" "0.1.4")) = 1 /\
      events (snd (node Demo.lib Demo.dir (Demo.read_only "0.1.7" "0.1.4"))) =
      [ EvRead (packageJsonPath Demo.dir);
        EvLog ("📦 当前版本: " +:+ "0.1.7");
        EvRead (cargoTomlPath Demo.dir);
        EvWrite (cargoTomlPath Demo.dir) (Demo.cargo_toml "0.1.7");
        EvUncaught e ] /\
      kind e = FsWriteError /\
      taxonomy (kind e) = Some WriteError /\
      repo (world (snd (node Demo.lib Demo.dir (Demo.read_only "0.1.7" "0.1.4"))))
      = repo (Demo.read_only "0.1.7" "0.1.4") /\
      (cargoTomlPath Demo.dir ∈ locked (Demo.read_only "0.1.7" "0.1.4") ->
       world (snd (node Demo.lib Demo.dir (Demo.read_only "0.1.7" "0.1.4")))
       = Demo.read_only "0.1.7" "0.1.4") /\
      (cargoTomlPath Demo.dir ∉ locked (Demo.read_only "0.1.7" "0.1.4") ->
       files (world (snd (node Demo.lib Demo.dir (Demo.read_only "0.1.7" "0.1.4"))))
         !! cargoTomlPath Demo.dir =
       Some (String.substring 0
               (default 0%nat (capacity (Demo.read_only "0.1.7" "0.1.4")))
               (Demo.cargo_toml "0.1.7")))) /\
  (exists e,
      fst (node Demo.lib Demo.dir (Demo.disk_full "0.1.7" "0.1.4")) = 1 /\
      events (snd (node Demo.lib Demo.dir (Demo.disk_full "0.1.7" "0.1.4"))) =
      [ EvRead (packageJsonPath Demo.dir);
        EvLog ("📦 当前版本: " +:+ "0.1.7");
        EvRead (cargoTomlPath Demo.dir);
        EvWrite (cargoTomlPath Demo.dir) (Demo.cargo_toml "0.1.7");
        EvUncaught e ] /\
      kind e = FsWriteError /\
      taxonomy (kind e) = Some WriteError /\
      repo (world (snd (node Demo.lib Demo.dir (Demo.disk_full "0.1.7" "0.1.4"))))
      = repo (Demo.disk_full "0.1.7" "0.1.4") /\
      (cargoTomlPath Demo.dir ∈ locked (Demo.disk_full "0.1.7" "0.1.4") ->
       world (snd (node Demo.lib Demo.dir (Demo.disk_full "0.1.7" "0.1.4")))
       = Demo.disk_full "0.1.7" "0.1.4") /\
      (cargoTomlPath Demo.dir ∉ locked (Demo.disk_full "0.1.7" "0.1.4") ->
       files (world (snd (node Demo.lib Demo.dir (Demo.disk_full "0.1.7" "0.1.4"))))
         !! cargoTomlPath Demo.dir =
       Some (String.substring 0
               (default 0%nat (capacity (Demo.disk_full "0.1.7" "0.1.4")))
               (Demo.cargo_toml "0.1.7")))).
Proof.
  split.
  - apply (write_failure_stops_before_git Demo.lib Demo.dir
             (Demo.read_only "0.1.7" "0.1.4") (VStr "0.1.7") (Demo.cargo_doc "0.1.4")
             "0.1.7" (Demo.cargo_toml "0.1.7")).
    + reach (Demo.package_json "0.1.7") (Demo.package_doc "0.1.7") (VStr "0.1.7") "0.1.7"
            (Demo.cargo_toml "0.1.4") (Demo.cargo_doc "0.1.4") (Demo.cargo_doc "0.1.7").
    + left. vm_compute. reflexivity.
  - apply (write_failure_stops_before_git Demo.lib Demo.dir
             (Demo.disk_full "0.1.7" "0.1.4") (VStr "0.1.7") (Demo.cargo_doc "0.1.4")
             "0.1.7" (Demo.cargo_toml "0.1.7")).
    + reach (Demo.package_json "0.1.7") (Demo.package_doc "0.1.7") (VStr "0.1.7") "0.1.7"
            (Demo.cargo_toml "0.1.4") (Demo.cargo_doc "0.1.4") (Demo.cargo_doc "0.1.7").
    + right. vm_compute. reflexivity.
Defined.

(** X5.  With package.json read and its version printed, the run stops
    before the write when Cargo.toml is missing, when smol-toml's parse
    rejects it, or when stringify rejects the patched document.  Each time
    the exception is uncaught, the status is 1, the trace is the two reads
    and the one log line, and the world is unchanged.  The first two are
    read errors in the terms of the specification; it has no class for the
    third. *)
Theorem secondary_failure_stops_before_write
    (L : Libs) (dir : path) (w : World) (ptext shown : string)
    (packageJson version : value) :
  files w !! packageJsonPath dir = Some ptext ->
  JSON_parse L ptext = inr packageJson ->
  get packageJson "version" = inr version ->
  ToString version = inr shown ->
  (files w !! cargoTomlPath dir = None \/
   (exists ctext msg,
       files w !! cargoTomlPath dir = Some ctext /\ parse L ctext = inl msg) \/
   (exists ctext cargo cargo' msg,
       files w !! cargoTomlPath dir = Some ctext /\
       parse L ctext = inr cargo /\
       assign_package_version cargo version = inr cargo' /\
       stringify L cargo' = inl msg)) ->
  exists e,
    node L dir w =
    (1, {| world := w;
           events := [ EvRead (packageJsonPath dir);
                       EvLog ("📦 当前版本: " +:+ shown);
                       EvRead (cargoTomlPath dir);
                       EvUncaught e ] |}) /\
    (kind e = FsReadError \/ kind e = TomlParseError \/ kind e = TomlStringifyError) /\
    (kind e <> TomlStringifyError -> taxonomy (kind e) = Some ReadError) /\
    (kind e = TomlStringifyError -> taxonomy (kind e) = None).
Proof.
  intros H1 H2 H3 Hs
    [H4|[(ctext & msg & H4 & H5)|(ctext & cargo & cargo' & msg & H4 & H5 & H6 & H7)]].
  - eexists. split; [run_main; feed H1; feed H2; feed H3; feed Hs; feed H4; reflexivity|].
    cbn [kind]. split; [by left|]. done.
  - eexists. split;
      [run_main; feed H1; feed H2; feed H3; feed Hs; feed H4; feed H5; reflexivity|].
    cbn [kind]. split; [right; by left|]. done.
  - eexists. split;
      [run_main; feed H1; feed H2; feed H3; feed Hs; feed H4; feed H5; feed H6; feed H7;
       reflexivity|].
    cbn [kind]. split; [right; by right|]. done.
Qed.

Lemma secondary_failure_stops_before_write_witness :
  exists e,
    node Demo.lib Demo.dir Demo.no_secondary =
    (1, {| world := Demo.no_secondary;
           events := [ EvRead (packageJsonPath Demo.dir);
                       EvLog ("📦 当前版本: " +:+ "0.1.7");
                       EvRead (cargoTomlPath Demo.dir);
                       EvUncaught e ] |}) /\
    (kind e = FsReadError \/ kind e = TomlParseError \/ kind e = TomlStringifyError) /\
    (kind e <> TomlStringifyError -> taxonomy (kind e) = Some ReadError) /\
    (kind e = TomlStringifyError -> taxonomy (kind e) = None).
Proof.
  apply (secondary_failure_stops_before_write Demo.lib Demo.dir Demo.no_secondary
           (Demo.package_json "0.1.7") "0.1.7" (Demo.package_doc "0.1.7") (VStr "0.1.7")).
  - vm_compute. reflexivity.
  - vm_compute. reflexivity.
  - vm_compute. reflexivity.
  - vm_compute. reflexivity.
  - left. vm_compute. reflexivity.
Defined.

(** ** The commit after a run *)

Lemma git_amend_inv (cwd : path) (w w3 : World) :
  git_amend cwd true true w = inr w3 ->
  exists r c older,
    repo w = Some r /\
    history r = c :: older /\
    w3 = with_repo w (with_history r ({| commit_message := commit_message c;
                                         tree := index r |} :: older)).
Proof.
  unfold git_amend. intros H.
  destruct (repo w) as [r|]; [|discriminate].
  destruct (negb (is_prefix (worktree r) cwd)); [discriminate|].
  destruct (history r) as [|c older] eqn:Hh; [discriminate|].
  destruct (merging r); [discriminate|].
  cbn [negb andb] in H.
  destruct (other_hook_rejects r); [discriminate|].
  injection H as <-. by exists r, c, older.
Qed.

(** X6.  Status 0 means the change is in HEAD.  After such a run the
    repository has as many commits as before, the commits below HEAD are
    the same, HEAD has the message it had, and the tree of HEAD holds at
    src-tauri/Cargo.toml exactly the text that is on disk; the rest of the
    tree is what the index held. *)
Theorem success_means_committed (L : Libs) (dir : path) (w : World) (s : State) :
  node L dir w = (0, s) ->
  exists data r r' c c' older,
    files (world s) !! cargoTomlPath dir = Some data /\
    repo w = Some r /\
    history r = c :: older /\
    repo (world s) = Some r' /\
    history r' = c' :: older /\
    commit_message c' = commit_message c /\
    tree c' = <[cargoTomlPath dir := data]> (index r) /\
    tree c' !! cargoTomlPath dir = files (world s) !! cargoTomlPath dir /\
    index r' = tree c'.
Proof.
  intros Hrun.
  destruct (node_success _ _ _ _ Hrun)
    as (version & shown & cargo & data & Hr & Hl & Hfit & Hout).
  apply amend_outcome_success in Hout as (w2 & w3 & Hadd & Hamend & ->).
  cbn [world sync_state] in Hadd.
  apply git_add_inv in Hadd as (r & c0 & Hrepo & Hf & ->).
  rewrite staged_path_is_cargoTomlPath in *.
  rewrite written_lookup in Hf. injection Hf as <-.
  cbn [written repo] in Hrepo.
  apply git_amend_inv in Hamend as (r2 & c & older & Hr2 & Hh & ->).
  cbn [with_repo repo] in Hr2. injection Hr2 as <-.
  cbn [with_index history] in Hh.
  eexists data, r, _, c, _, older.
  cbn [world with_repo files written repo with_history with_index history index
       commit_message tree].
  repeat split; try done.
  - apply lookup_insert_eq.
  - cbn [tree]. etrans; [apply lookup_insert_eq|]. symmetry. apply lookup_insert_eq.
Qed.

Lemma success_means_committed_witness :
  exists data r r' c c' older,
    files (world (snd (node Demo.lib Demo.dir (Demo.after_release "0.1.7" "0.1.4"))))
      !! cargoTomlPath Demo.dir = Some data /\
    repo (Demo.after_release "0.1.7" "0.1.4") = Some r /\
    history r = c :: older /\
    repo (world (snd (node Demo.lib Demo.dir (Demo.after_release "0.1.7" "0.1.4"))))
    = Some r' /\
    history r' = c' :: older /\
    commit_message c' = commit_message c /\
    tree c' = <[cargoTomlPath Demo.dir := data]> (index r) /\
    tree c' !! cargoTomlPath Demo.dir =
    files (world (snd (node Demo.lib Demo.dir (Demo.after_release "0.1.7" "0.1.4"))))
      !! cargoTomlPath Demo.dir /\
    index r' = tree c'.
Proof.
  apply (success_means_committed Demo.lib Demo.dir (Demo.after_release "0.1.7" "0.1.4")).
  vm_compute. reflexivity.
Defined.

(** X7.  No run, whether it succeeds or fails, adds a commit, drops one
    or changes a commit message: the list of commit messages at the end is
    the list at the start, and a directory without a repository stays
    without one. *)
Theorem commit_messages_unchanged (L : Libs) (dir : path) (w : World) :
  commit_messages (world (snd (node L dir w))) = commit_messages w.
Proof.
  destruct (node_cases L dir w)
    as [(e & ->)|[(v & e & ->)|[(v & sh & c & d & _ & _ & ->)|
       [(v & sh & c & d & _ & _ & _ & ->)|(v & sh & c & d & _ & _ & _ & ->)]]]];
    try done.
  unfold amend_outcome. cbn [world events sync_state].
  destruct (git_add _ _ _) as [err|w2] eqn:Hadd; [done|].
  apply git_add_inv in Hadd as (r & c0 & Hrepo & _ & ->).
  cbn [written repo] in Hrepo.
  destruct (git_amend _ _ _ _) as [err|w3] eqn:Hamend.
  - cbn [snd world]. unfold commit_messages. cbn [with_repo repo]. by rewrite Hrepo.
  - apply git_amend_inv in Hamend as (r2 & c1 & older & Hr2 & Hh & ->).
    cbn [with_repo repo] in Hr2. injection Hr2 as <-.
    cbn [with_index history] in Hh.
    cbn [snd world]. unfold commit_messages. cbn [with_repo repo].
    rewrite Hrepo. cbn [fmap option_fmap option_map with_history history map
                        commit_message].
    by rewrite Hh.
Qed.

(** ** The assignment of line 35 *)

Lemma set_field_keys_new (k : string) (v : value) (fs : list (string * value)) :
  lookup_field k fs = None ->
  map fst (set_field k v fs) = (map fst fs ++ [k])%list.
Proof.
  induction fs as [|[k' v'] fs IH]; simpl; [done|].
  destruct (String.eqb k k') eqn:E; [done|].
  intros H. simpl. by rewrite IH.
Qed.

Lemma set_field_set_field (k : string) (v1 v2 : value) (fs : list (string * value)) :
  set_field k v2 (set_field k v1 fs) = set_field k v2 fs.
Proof.
  induction fs as [|[k' v'] fs IH]; simpl.
  - by rewrite String.eqb_refl.
  - destruct (String.eqb k k') eqn:E; simpl; rewrite E; [done|]. by rewrite IH.
Qed.

(** X8.  On a document with a package table the assignment succeeds and
    changes one field.  The version is read back as assigned, every other
    field of the package table and every other entry of the document is
    kept, and the keys of the document keep their order.  The keys of the
    package table keep their order when version was there; when it was
    not, version is added after the last key. *)
Theorem assignment_on_package_table
    (cfs pfs : list (string * value)) (version : value) :
  lookup_field "package" cfs = Some (VObj pfs) ->
  exists cfs' pfs',
    assign_package_version (VObj cfs) version = inr (VObj cfs') /\
    lookup_field "package" cfs' = Some (VObj pfs') /\
    lookup_field "version" pfs' = Some version /\
    (forall k, k <> "package" -> lookup_field k cfs' = lookup_field k cfs) /\
    (forall k, k <> "version" -> lookup_field k pfs' = lookup_field k pfs) /\
    map fst cfs' = map fst cfs /\
    map fst pfs' = match lookup_field "version" pfs with
                   | Some _ => map fst pfs
                   | None => (map fst pfs ++ ["version"])%list
                   end.
Proof.
  intros H.
  exists (set_field "package" (VObj (set_field "version" version pfs)) cfs),
         (set_field "version" version pfs).
  split; [by apply assign_package_table|].
  split; [apply lookup_set_field_eq|].
  split; [apply lookup_set_field_eq|].
  split; [intros k Hk; apply lookup_set_field_ne; congruence|].
  split; [intros k Hk; apply lookup_set_field_ne; congruence|].
  split; [by apply (set_field_keys _ _ (VObj pfs))|].
  destruct (lookup_field "version" pfs) as [v0|] eqn:Hv.
  - by apply (set_field_keys _ _ v0).
  - by apply set_field_keys_new.
Qed.

Lemma assignment_on_package_table_witness :
  exists cfs' pfs',
    assign_package_version (Demo.cargo_doc "0.1.4") (VStr "0.1.7") = inr (VObj cfs') /\
    lookup_field "package" cfs' = Some (VObj pfs') /\
    lookup_field "version" pfs' = Some (VStr "0.1.7") /\
    (forall k, k <> "package" ->
               lookup_field k cfs' =
               lookup_field k [("package",
                                VObj [("name", VStr "prism"); ("version", VStr "0.1.4")])]) /\
    (forall k, k <> "version" ->
               lookup_field k pfs' =
               lookup_field k [("name", VStr "prism"); ("version", VStr "0.1.4")]) /\
    map fst cfs' = ["package"] /\
    map fst pfs' = ["name"; "version"].
Proof.
  apply (assignment_on_package_table
           [("package", VObj [("name", VStr "prism"); ("version", VStr "0.1.4")])]
           [("name", VStr "prism"); ("version", VStr "0.1.4")] (VStr "0.1.7")).
  reflexivity.
Defined.

Lemma assign_after_assign (cargo c1 v1 v : value) :
  assign_package_version cargo v1 = inr c1 ->
  assign_package_version c1 v = assign_package_version cargo v.
Proof.
  assert (Hput : forall o o1 a b, put o "version" a = inr o1 ->
                                  put o1 "version" b = put o "version" b).
  { intros o o1 a b H. destruct o; cbn in H; simplify_eq; cbn;
      by rewrite set_field_set_field. }
  assert (Hget : forall fs x, default VUndefined
                                (lookup_field "package" (set_field "package" x fs)) = x).
  { intros fs x. by rewrite lookup_set_field_eq. }
  unfold assign_package_version.
  destruct (get cargo "package") as [e|pkg] eqn:Hg; [done|].
  destruct (put pkg "version" v1) as [e|pkg1] eqn:Hp; [done|].
  intros [= <-].
  destruct cargo; cbn in Hg; simplify_eq; cbn [get]; rewrite Hget;
    rewrite (Hput _ _ _ v Hp); destruct (put _ "version" v); try done;
    by rewrite set_field_set_field.
Qed.

(** X9.  The last assignment wins: assigning a second version to the
    result of a first assignment gives what assigning the second version
    directly gives.  Assigning the same version again changes nothing. *)
Theorem assignment_overwrites (cargo c1 v1 v2 : value) :
  assign_package_version cargo v1 = inr c1 ->
  assign_package_version c1 v2 = assign_package_version cargo v2 /\
  assign_package_version c1 v1 = inr c1.
Proof.
  intros H. split; [by apply (assign_after_assign cargo c1 v1)|].
  by rewrite (assign_after_assign cargo c1 v1 v1 H).
Qed.

Lemma assignment_overwrites_witness :
  assign_package_version (Demo.cargo_doc "0.1.7") (VStr "")
  = assign_package_version (Demo.cargo_doc "0.1.4") (VStr "") /\
  assign_package_version (Demo.cargo_doc "0.1.7") (VStr "0.1.7")
  = inr (Demo.cargo_doc "0.1.7").
Proof.
  apply (assignment_overwrites (Demo.cargo_doc "0.1.4") (Demo.cargo_doc "0.1.7")
           (VStr "0.1.7") (VStr "")).
  reflexivity.
Defined.

(** ** Where the manifests are *)

Lemma join_one (base : path) (a : string) :
  String.eqb a ".." = false -> String.eqb a "." = false ->
  join base [a] = (base ++ [a])%list.
Proof.
  intros Ha Ha'. unfold join. simpl. rewrite Ha, Ha'.
  simpl. by rewrite rev_involutive.
Qed.

Lemma packageJsonPath_app (dir : path) :
  packageJsonPath dir = (rootDir dir ++ ["package.json"])%list.
Proof. unfold packageJsonPath. apply join_one; reflexivity. Qed.

Lemma manifests_differ (dir : path) : packageJsonPath dir <> cargoTomlPath dir.
Proof.
  rewrite packageJsonPath_app, cargoTomlPath_app. intros H.
  apply app_inv_head in H. discriminate.
Qed.

(** X10.  The paths depend on the place of the script alone.  The root is
    the parent of the script's directory; package.json and
    src-tauri/Cargo.toml sit under it and are two different files; and the
    relative path given to git add, resolved in the working directory
    given to execSync, is the file that writeFileSync wrote. *)
Theorem manifest_paths (dir : path) :
  rootDir dir = removelast dir /\
  packageJsonPath dir = (rootDir dir ++ ["package.json"])%list /\
  cargoTomlPath dir = (rootDir dir ++ ["src-tauri"; "Cargo.toml"])%list /\
  packageJsonPath dir <> cargoTomlPath dir /\
  join (rootDir dir) (split_on "/"%char "src-tauri/Cargo.toml") = cargoTomlPath dir.
Proof.
  split; [|split; [apply packageJsonPath_app|split; [apply cargoTomlPath_app|
          split; [apply manifests_differ|reflexivity]]]].
  unfold rootDir, join. cbn [normalize String.eqb Ascii.eqb Bool.eqb].
  destruct dir as [|a dir'] using rev_ind; [done|].
  rewrite rev_app_distr. cbn [rev app tail].
  by rewrite rev_involutive, removelast_last.
Qed.

(** ** Running the script again *)

Lemma git_add_capacity (cwd : path) (ps : string) (w w' : World) :
  git_add cwd ps w = inr w' -> capacity w' = capacity w.
Proof.
  intros H. apply git_add_inv in H as (r & c & _ & _ & ->). reflexivity.
Qed.

Lemma git_amend_capacity (cwd : path) (w w' : World) :
  git_amend cwd true true w = inr w' -> capacity w' = capacity w.
Proof.
  intros H. apply git_amend_inv in H as (r & c & older & _ & _ & ->). reflexivity.
Qed.

Lemma amend_outcome_capacity (root : path) (s : State) :
  capacity (world (snd (amend_outcome root s))) = capacity (world s).
Proof.
  unfold amend_outcome.
  destruct (git_add root _ (world s)) as [err|w2] eqn:Ha; [done|].
  apply git_add_capacity in Ha.
  destruct (git_amend root true true w2) as [err|w3] eqn:Hc; simpl; [done|].
  apply git_amend_capacity in Hc. congruence.
Qed.

(** X11.  Run the script a second time, on the world the first run left,
    with a smol-toml that parses the text it wrote back to the document it
    was given.  The second run gets to the write with the same text, and
    when it ends every file has the content the first run left: the
    rewrite is unconditional but changes no byte. *)
Theorem second_run_changes_no_file
    (L : Libs) (dir : path) (w : World) (version cargo cargo' : value)
    (shown data : string) :
  reaches_write L dir w version shown cargo data ->
  cargoTomlPath dir ∉ locked w ->
  fits w data = true ->
  assign_package_version cargo version = inr cargo' ->
  parse L data = inr cargo' ->
  reaches_write L dir (world (snd (node L dir w))) version shown cargo' data /\
  files (world (snd (node L dir (world (snd (node L dir w))))))
  = files (world (snd (node L dir w))).
Proof.
  intros Hr Hl Hfit Ha Hp.
  assert (Hfiles : files (world (snd (node L dir w)))
                   = <[cargoTomlPath dir := data]> (files w)).
  { rewrite (node_after_write _ _ _ _ _ _ _ Hr Hl Hfit). by rewrite amend_outcome_files. }
  assert (Hlocked : locked (world (snd (node L dir w))) = locked w).
  { rewrite (node_after_write _ _ _ _ _ _ _ Hr Hl Hfit). by rewrite amend_outcome_locked. }
  assert (Hcap : fits (world (snd (node L dir w))) data = true).
  { unfold fits. rewrite (node_after_write _ _ _ _ _ _ _ Hr Hl Hfit).
    rewrite amend_outcome_capacity. exact Hfit. }
  assert (Hr2 : reaches_write L dir (world (snd (node L dir w)))
                  version shown cargo' data).
  { inversion Hr as [ptext pj v' sh' ctext c0 cargo0 d' E1 E2 E3 Es E4 E5 E6 E7]; subst.
    rewrite Ha in E6. injection E6 as <-.
    apply (ReachesWrite _ _ _ ptext pj version shown data cargo' cargo'); try done.
    - rewrite Hfiles, lookup_insert_ne; [done|]. intros H.
      by apply (manifests_differ dir).
    - rewrite Hfiles. apply lookup_insert_eq.
    - by rewrite (assign_after_assign cargo cargo' version version Ha). }
  split; [exact Hr2|].
  rewrite (node_after_write _ _ _ _ _ _ _ Hr2); [|by rewrite Hlocked|exact Hcap].
  rewrite amend_outcome_files. cbn [world sync_state written files].
  apply insert_id. rewrite Hfiles. apply lookup_insert_eq.
Qed.

Lemma second_run_changes_no_file_witness :
  reaches_write Demo.lib Demo.dir
    (world (snd (node Demo.lib Demo.dir (Demo.after_release "0.1.7" "0.1.4"))))
    (VStr "0.1.7") "0.1.7" (Demo.cargo_doc "0.1.7") (Demo.cargo_toml "0.1.7") /\
  files (world (snd (node Demo.lib Demo.dir
                       (world (snd (node Demo.lib Demo.dir
                                      (Demo.after_release "0.1.7" "0.1.4")))))))
  = files (world (snd (node Demo.lib Demo.dir (Demo.after_release "0.1.7" "0.1.4")))).
Proof.
  apply (second_run_changes_no_file Demo.lib Demo.dir
           (Demo.after_release "0.1.7" "0.1.4") (VStr "0.1.7")
           (Demo.cargo_doc "0.1.4") (Demo.cargo_doc "0.1.7") "0.1.7"
           (Demo.cargo_toml "0.1.7")).
  - reach (Demo.package_json "0.1.7") (Demo.package_doc "0.1.7") (VStr "0.1.7") "0.1.7"
          (Demo.cargo_toml "0.1.4") (Demo.cargo_doc "0.1.4") (Demo.cargo_doc "0.1.7").
  - cbn [Demo.after_release locked]. apply not_elem_of_empty.
  - reflexivity.
  - reflexivity.
  - reflexivity.
Defined.
